(** * student_grades.py: a shallow embedding and its specification

    The program reads [students.csv], evaluates every student record
    (average, letter grade, min/max/range, pass/fail) and writes
    [student_results.csv].

    Modelling conventions.
    - A Python [dict] with string keys is a [gmap string value].
    - Python values are dynamically typed: [value] has the three kinds the
      program manipulates ([str], [int], [float]).
    - A Python [float] is modelled by the rational it stands for: true
      division and [round] are the exact operations on [Q].  Binary rounding
      error, [nan]/[inf] and [OverflowError] beyond the range of a double are
      outside the model.
    - Exceptions and [print] are explicit: a computation maps a [world]
      (standard output and the file system) to a new world and either a
      value or the exception that was raised.
    - [csv.reader], [int] and the text form of a value are library code: a
      text file is the list of rows [csv.reader] yields, and [int] / [str]
      are the two members of the class [Builtins]. *)

From Stdlib Require Import Ascii QArith Qround Lqa.
From stdpp Require Import gmap strings list fin_maps pretty.

Local Open Scope Z_scope.

(** ** Values, exceptions, diagnostics *)

Inductive value :=
  | VStr (s : string)
  | VInt (n : Z)
  | VFloat (q : Q).

Inductive exn :=
  | KeyError (k : string)
  | TypeError
  | ValueError
  | IndexError
  | ZeroDivisionError
  | StopIteration
  | FileNotFoundError
  | SystemExit (code : Z).

Inductive result (A : Type) :=
  | Ok (a : A)
  | Raise (e : exn).
Arguments Ok {A} a.
Arguments Raise {A} e.

(** One constructor per [print] call of the source. *)
Inductive msg :=
  | MissingDataRow (row : list string)   (* f"Missing data: {row}" *)
  | InvalidData (row : list string)      (* f"Invalid data: {row}. Grades must be integers!" *)
  | NotFound (filename : string)         (* f"Error: {filename} not found." *)
  | MissingDataKey (k : string)          (* f"Missing data: {e}" *)
  | ResultsWritten (filename : string)   (* f"Results written to {filename}!" *)
  | NoDataToWrite                        (* "No data to write." *)
  | ProcessingCompleted.                 (* "Processing completed. Exiting..." *)

Record world := World {
  stdout : list msg;
  files : gmap string (list (list string))
}.

(** ** The two monads: exceptions only, and exceptions over a world *)

Global Instance result_ret : MRet result := @Ok.

Global Instance result_bind : MBind result := λ A B f r,
  match r with
  | Ok a => f a
  | Raise e => Raise e
  end.

Definition M (A : Type) : Type := world → world * result A.

Global Instance M_ret : MRet M := λ A a w, (w, Ok a).

Global Instance M_bind : MBind M := λ A B f m w,
  match m w with
  | (w', Ok a) => f a w'
  | (w', Raise e) => (w', Raise e)
  end.

Definition lift {A} (r : result A) : M A := λ w, (w, r).

Definition raise {A} (e : exn) : M A := lift (Raise e).

Definition print (m : msg) : M unit :=
  λ w, (World (stdout w ++ [m]) (files w), Ok tt).

(** [try: body except <the exceptions h accepts>: h e]. *)
Definition try_except {A} (body : M A) (h : exn → option (M A)) : M A :=
  λ w, match body w with
       | (w', Ok a) => (w', Ok a)
       | (w', Raise e) =>
           match h e with
           | Some handler => handler w'
           | None => (w', Raise e)
           end
       end.

Definition sys_exit {A} (code : Z) : M A := raise (SystemExit code).

(** ** Built-in operations on values *)

(** [d[k]] *)
Definition getitem (d : gmap string value) (k : string) : result value :=
  match d !! k with
  | Some v => Ok v
  | None => Raise (KeyError k)
  end.

(** [row[i]] *)
Definition row_item (row : list string) (i : nat) : result string :=
  match row !! i with
  | Some s => Ok s
  | None => Raise IndexError
  end.

(** [a + b] *)
Definition py_add (a b : value) : result value :=
  match a, b with
  | VInt x, VInt y => Ok (VInt (x + y))
  | VInt x, VFloat y => Ok (VFloat (Qred (inject_Z x + y)))
  | VFloat x, VInt y => Ok (VFloat (Qred (x + inject_Z y)))
  | VFloat x, VFloat y => Ok (VFloat (Qred (x + y)))
  | VStr x, VStr y => Ok (VStr (x +:+ y))
  | _, _ => Raise TypeError
  end.

(** [a - b] *)
Definition py_sub (a b : value) : result value :=
  match a, b with
  | VInt x, VInt y => Ok (VInt (x - y))
  | VInt x, VFloat y => Ok (VFloat (Qred (inject_Z x - y)))
  | VFloat x, VInt y => Ok (VFloat (Qred (x - inject_Z y)))
  | VFloat x, VFloat y => Ok (VFloat (Qred (x - y)))
  | _, _ => Raise TypeError
  end.

(** [a < b] *)
Definition py_lt (a b : value) : result bool :=
  match a, b with
  | VInt x, VInt y => Ok (bool_decide (x < y))
  | VInt x, VFloat y => Ok (negb (Qle_bool y (inject_Z x)))
  | VFloat x, VInt y => Ok (negb (Qle_bool (inject_Z y) x))
  | VFloat x, VFloat y => Ok (negb (Qle_bool y x))
  | VStr x, VStr y => Ok (String.ltb x y)
  | _, _ => Raise TypeError
  end.

(** [a > b] *)
Definition py_gt (a b : value) : result bool := py_lt b a.

(** [a / n] for an [int] divisor [n]: always a [float]. *)
Definition py_truediv (a : value) (n : Z) : result Q :=
  match a with
  | VStr _ => Raise TypeError
  | VInt x => if bool_decide (n = 0) then Raise ZeroDivisionError
              else Ok (Qred (inject_Z x / inject_Z n))
  | VFloat x => if bool_decide (n = 0) then Raise ZeroDivisionError
                else Ok (Qred (x / inject_Z n))
  end.

(** Nearest integer, ties to the even one. *)
Definition round_half_even (q : Q) : Z :=
  let n := Qnum q in
  let d := Z.pos (Qden q) in
  let fl := n `div` d in
  let r := n `mod` d in
  match 2 * r ?= d with
  | Lt => fl
  | Gt => fl + 1
  | Eq => if Z.even fl then fl else fl + 1
  end.

(** [round(x, ndigits)] on a [float], [ndigits >= 0]. *)
Definition py_round (x : Q) (ndigits : nat) : Q :=
  let scale := 10 ^ Z.of_nat ndigits in
  Qred (inject_Z (round_half_even (x * inject_Z scale)) / inject_Z scale).

Class Builtins := {
  (** [int(s)]: [None] when Python raises [ValueError]. *)
  int_of_str : string → option Z;
  (** [str(v)] as [csv.writer] puts it in a field. *)
  str_of_value : value → string
}.

Definition py_int `{Builtins} (s : string) : result Z :=
  match int_of_str s with
  | Some n => Ok n
  | None => Raise ValueError
  end.

(** ** The program *)

(** The record built at lines 28-35. *)
Definition student_record (name : string) (cs ds cf dl sf : Z)
    : gmap string value :=
  {[ "name" := VStr name;
     "cyber_security" := VInt cs;
     "data_science" := VInt ds;
     "computing_foundation" := VInt cf;
     "digital_literacy" := VInt dl;
     "software_foundation" := VInt sf ]}.

Definition score_keys : list string :=
  ["cyber_security"; "data_science"; "computing_foundation";
   "digital_literacy"; "software_foundation"].

(** The six keys of a record as the reader builds it. *)
Definition record_fields : gset string :=
  list_to_set ("name" :: score_keys).

(** Lines 57-60: the body of the [try]. *)
Definition average_body (student : gmap string value) : result Q :=
  cs ← getitem student "cyber_security";
  ds ← getitem student "data_science";
  t1 ← py_add cs ds;
  cf ← getitem student "computing_foundation";
  t2 ← py_add t1 cf;
  dl ← getitem student "digital_literacy";
  t3 ← py_add t2 dl;
  sf ← getitem student "software_foundation";
  total ← py_add t3 sf;
  average ← py_truediv total (Z.of_nat (size student) - 1);
  mret (py_round average 2).

Definition calculate_average (student : gmap string value) : M (option Q) :=
  try_except
    (average ← lift (average_body student); mret (Some average))
    (λ e, match e with
          | KeyError k => Some (print (MissingDataKey k);; mret None)
          | _ => None
          end).

Definition assign_grade (score : Q) : string :=
  if Qle_bool 80 score then "A"
  else if Qle_bool 70 score then "B"
  else if Qle_bool 60 score then "C"
  else if Qle_bool 50 score then "D"
  else if Qle_bool 40 score then "E"
  else "F".

(** [min(l)] and [max(l)]: the first item is the candidate, a later item
    replaces it when it compares strictly better. *)
Fixpoint best_of (better : value → value → result bool)
    (current : value) (items : list value) : result value :=
  match items with
  | [] => Ok current
  | item :: items' =>
      b ← better item current;
      best_of better (if b : bool then item else current) items'
  end.

Definition py_min (l : list value) : result value :=
  match l with
  | [] => Raise ValueError
  | x :: l' => best_of py_lt x l'
  end.

Definition py_max (l : list value) : result value :=
  match l with
  | [] => Raise ValueError
  | x :: l' => best_of py_gt x l'
  end.

Definition calculate_min_max_range (student_scores : list value)
    : result (value * value * value) :=
  min_score ← py_min student_scores;
  max_score ← py_max student_scores;
  score_range ← py_sub max_score min_score;
  mret (min_score, max_score, score_range).

(** Line 128. *)
Definition pass_fail (average : Q) : string :=
  if Qle_bool 40 average then "Congratulations, you passed!" else "Fail".

(** The record built at lines 131-144. *)
Definition student_results (name cs ds cf dl sf average grade
    min_score max_score score_range pass_fail : value) : gmap string value :=
  {[ "name" := name;
     "cyber_security" := cs;
     "data_science" := ds;
     "computing_foundation" := cf;
     "digital_literacy" := dl;
     "software_foundation" := sf;
     "average" := average;
     "grade" := grade;
     "min_score" := min_score;
     "max_score" := max_score;
     "score_range" := score_range;
     "pass_fail" := pass_fail ]}.

(** Lines 116-145: one iteration of the loop; [None] when nothing is
    appended to [results]. *)
Definition process_student (student : gmap string value)
    : M (option (gmap string value)) :=
  student_scores ← lift (mapM (getitem student) score_keys);
  average ← calculate_average student;
  match average with
  | Some average =>
      let grade := assign_grade average in
      '(min_score, max_score, score_range) ←
        lift (calculate_min_max_range student_scores);
      let pass_fail := pass_fail average in
      name ← lift (getitem student "name");
      cs ← lift (getitem student "cyber_security");
      ds ← lift (getitem student "data_science");
      cf ← lift (getitem student "computing_foundation");
      dl ← lift (getitem student "digital_literacy");
      sf ← lift (getitem student "software_foundation");
      mret (Some (student_results name cs ds cf dl sf (VFloat average)
                    (VStr grade) min_score max_score score_range
                    (VStr pass_fail)))
  | None => mret None
  end.

(** Lines 115-145: [for student in students_data]. *)
Fixpoint process_loop (students_data results : list (gmap string value))
    : M (list (gmap string value)) :=
  match students_data with
  | [] => mret results
  | student :: rest =>
      r ← process_student student;
      match r with
      | Some student_results => process_loop rest (results ++ [student_results])
      | None => process_loop rest results
      end
  end.

Definition process_student_results (students_data : list (gmap string value))
    : M (list (gmap string value)) :=
  process_loop students_data [].

Definition header : list string :=
  ["name"; "cyber_security"; "data_science"; "computing_foundation";
   "digital_literacy"; "software_foundation"; "average"; "grade";
   "min_score"; "max_score"; "score_range"; "pass_fail"].

Section Program.
Context `{Builtins}.

(** Lines 28-35: the body of the inner [try]. *)
Definition row_record (row : list string) : result (gmap string value) :=
  name ← row_item row 0;
  cs ← row_item row 1 ≫= py_int;
  ds ← row_item row 2 ≫= py_int;
  cf ← row_item row 3 ≫= py_int;
  dl ← row_item row 4 ≫= py_int;
  sf ← row_item row 5 ≫= py_int;
  mret (student_record name cs ds cf dl sf).

(** Lines 26-38: the inner [try] and its handler. *)
Definition parse_row (row : list string) : M (gmap string value) :=
  try_except
    (lift (row_record row))
    (λ e, match e with
          | ValueError => Some (print (InvalidData row);; sys_exit 1)
          | _ => None
          end).

(** Lines 21-38: [for row in csv_reader]. *)
Fixpoint read_rows (rows : list (list string)) (data : list (gmap string value))
    : M (list (gmap string value)) :=
  match rows with
  | [] => mret data
  | row :: rows' =>
      if bool_decide (length row < 6)%nat
      then print (MissingDataRow row);; read_rows rows' data
      else student ← parse_row row; read_rows rows' (data ++ [student])
  end.

(** A data row that passes the length test and has a score field, one of
    [row[1]] to [row[5]], that [int] rejects. *)
Definition invalid_row (row : list string) : Prop :=
  (6 ≤ length row)%nat
  ∧ ∃ (i : nat) (s : string),
      (1 ≤ i ∧ i ≤ 5)%nat ∧ row !! i = Some s ∧ int_of_str s = None.

(** [print] of several lines. *)
Definition tell (log : list msg) (w : world) : world :=
  World (stdout w ++ log) (files w).

(** [open(filename, 'r')] followed by [csv.reader(file)]. *)
Definition open_csv (filename : string) : M (list (list string)) :=
  λ w, match files w !! filename with
       | Some rows => (w, Ok rows)
       | None => (w, Raise FileNotFoundError)
       end.

(** [next(csv_reader)] *)
Definition py_next (rows : list (list string))
    : result (list string * list (list string)) :=
  match rows with
  | [] => Raise StopIteration
  | row :: rows' => Ok (row, rows')
  end.

Definition read_student_data (filename : string) : M (list (gmap string value)) :=
  try_except
    (csv_reader ← open_csv filename;
     '(header, csv_reader) ← lift (py_next csv_reader);
     read_rows csv_reader [])
    (λ e, match e with
          | FileNotFoundError => Some (print (NotFound filename);; sys_exit 1)
          | _ => None
          end).

(** [DictWriter._dict_to_list]: a key outside [fieldnames] is a
    [ValueError], a missing one is written as the empty field. *)
Definition dict_to_list (fieldnames : list string) (rowdict : gmap string value)
    : result (list string) :=
  if bool_decide (dom rowdict ⊆ (list_to_set fieldnames : gset string))
  then Ok ((λ k, default "" (str_of_value <$> rowdict !! k)) <$> fieldnames)
  else Raise ValueError.

(** [writer.writerows(results)]: rows reach the file one by one. *)
Fixpoint writerows (filename : string) (fieldnames : list string)
    (rowdicts : list (gmap string value)) : M unit :=
  match rowdicts with
  | [] => mret tt
  | rowdict :: rest =>
      row ← lift (dict_to_list fieldnames rowdict);
      (λ w, (World (stdout w)
                   (<[filename := default [] (files w !! filename) ++ [row]]> (files w)),
             Ok tt));;
      writerows filename fieldnames rest
  end.

Definition write_results_to_csv (results : list (gmap string value))
    (filename : string) : M unit :=
  match results with
  | _ :: _ =>
      (* open(filename, 'w') and writer.writeheader() *)
      (λ w, (World (stdout w) (<[filename := [header]]> (files w)), Ok tt));;
      writerows filename header results;;
      print (ResultsWritten filename)
  | [] => print NoDataToWrite
  end.

(** Lines 172-185. *)
Definition main : M unit :=
  let filename := "students.csv" in
  students_data ← read_student_data filename;
  match students_data with
  | _ :: _ =>
      results ← process_student_results students_data;
      write_results_to_csv results "student_results.csv"
  | [] => mret tt
  end;;
  print ProcessingCompleted.

(** The status the interpreter exits with: 0 when the script runs to its
    end, the argument of [sys.exit], 1 for any other uncaught exception. *)
Definition exit_status (r : result unit) : Z :=
  match r with
  | Ok _ => 0
  | Raise (SystemExit code) => code
  | Raise _ => 1
  end.

End Program.

(** ** An instance of the built-ins, to run the model

    [int] on ASCII text (surrounding white space, an optional sign, decimal
    digits with single underscores between them) and [str] on the values
    the program writes ([float]s with at most two decimals, below 1e16). *)

Module Demo.

Definition is_space (c : ascii) : bool :=
  let n := nat_of_ascii c in
  bool_decide ((9 ≤ n ∧ n ≤ 13) ∨ (28 ≤ n ∧ n ≤ 32))%nat.

Definition digit (c : ascii) : option Z :=
  let n := Z.of_nat (nat_of_ascii c) in
  if bool_decide (48 ≤ n ∧ n ≤ 57) then Some (n - 48) else None.

Fixpoint lstrip (l : list ascii) : list ascii :=
  match l with
  | c :: l' => if is_space c then lstrip l' else l
  | [] => []
  end.

Definition strip (l : list ascii) : list ascii :=
  reverse (lstrip (reverse (lstrip l))).

Fixpoint digits (l : list ascii) (acc : Z) (after_digit : bool) : option Z :=
  match l with
  | [] => if after_digit then Some acc else None
  | c :: l' =>
      if bool_decide (c = "_"%char)
      then (if after_digit then digits l' acc false else None)
      else match digit c with
           | Some d => digits l' (10 * acc + d) true
           | None => None
           end
  end.

Definition ascii_int (s : string) : option Z :=
  match strip (String.list_ascii_of_string s) with
  | c :: l =>
      if bool_decide (c = "-"%char) then Z.opp <$> digits l 0 false
      else if bool_decide (c = "+"%char) then digits l 0 false
      else digits (c :: l) 0 false
  | [] => None
  end.

Definition str_of_float (q : Q) : string :=
  let m := round_half_even (q * 100) in
  let sign := if bool_decide (m < 0) then "-" else "" in
  let ip := Z.abs m `div` 100 in
  let fp := Z.abs m `mod` 100 in
  let frac := if bool_decide (fp `mod` 10 = 0) then pretty (fp `div` 10)
              else if bool_decide (fp < 10) then "0" +:+ pretty fp
              else pretty fp in
  sign +:+ pretty ip +:+ "." +:+ frac.

Definition ascii_str (v : value) : string :=
  match v with
  | VStr s => s
  | VInt n => pretty n
  | VFloat q => str_of_float q
  end.

#[export] Instance builtins : Builtins :=
  {| int_of_str := ascii_int; str_of_value := ascii_str |}.

Definition w0 : world := World [] ∅.

Definition csv_header : list string :=
  ["name"; "cyber_security"; "data_science"; "computing_foundation";
   "digital_literacy"; "software_foundation"].

Definition with_students (rows : list (list string)) : world :=
  World [] {[ "students.csv" := rows ]}.

Definition alice_row : list string := ["Alice"; "90"; "85"; "70"; "95"; "100"].
Definition bob_row : list string := ["Bob"; "30"; "40"; "35"; "20"; "25"].
Definition short_row : list string := ["Eve"; "10"; "20"; "30"].
Definition carl_row : list string := ["Carl"; "abc"; "50"; "60"; "70"; "80"].

(** Five input files: no line at all, a header only, a short row between
    two good ones, the same without the short row, and a row with a score
    that is not a number. *)
Definition w_empty : world := with_students [].
Definition w_header : world := with_students [csv_header].
Definition w_short : world :=
  with_students [csv_header; alice_row; short_row; bob_row].
Definition w_good : world := with_students [csv_header; alice_row; bob_row].
Definition w_invalid : world :=
  with_students [csv_header; alice_row; short_row; carl_row; bob_row].

Definition alice : gmap string value := student_record "Alice" 90 85 70 95 100.
Definition bob : gmap string value := student_record "Bob" 30 40 35 20 25.
Definition alice_results : gmap string value :=
  student_results (VStr "Alice") (VInt 90) (VInt 85) (VInt 70) (VInt 95)
    (VInt 100) (VFloat 88) (VStr "A") (VInt 70) (VInt 100) (VInt 30)
    (VStr "Congratulations, you passed!").
Definition bob_results : gmap string value :=
  student_results (VStr "Bob") (VInt 30) (VInt 40) (VInt 35) (VInt 20)
    (VInt 25) (VFloat 30) (VStr "F") (VInt 20) (VInt 40) (VInt 20)
    (VStr "Fail").
(** A record without its [software_foundation] score. *)
Definition dan : gmap string value :=
  {[ "name" := VStr "Dan";
     "cyber_security" := VInt 50;
     "data_science" := VInt 60;
     "computing_foundation" := VInt 70;
     "digital_literacy" := VInt 80 ]}.

End Demo.

(** ** Vocabulary of the further properties *)

(** The letters from worst to best. *)
Definition grade_rank (grade : string) : nat :=
  if String.eqb grade "A" then 5
  else if String.eqb grade "B" then 4
  else if String.eqb grade "C" then 3
  else if String.eqb grade "D" then 2
  else if String.eqb grade "E" then 1
  else 0.

(** A record as lines 28-35 build it. *)
Definition reader_record (student : gmap string value) : Prop :=
  ∃ name cs ds cf dl sf, student = student_record name cs ds cf dl sf.

Section Vocabulary.
Context `{Builtins}.

(** The line [DictWriter] writes for a record that has no key outside the
    header. *)
Definition csv_line (rowdict : gmap string value) : list string :=
  (λ k, default "" (str_of_value <$> rowdict !! k)) <$> header.

End Vocabulary.

(** The files after a run that wrote [content], or wrote nothing. *)
Definition write_out (out : option (list (list string)))
    (fs : gmap string (list (list string))) : gmap string (list (list string)) :=
  match out with
  | Some content => <["student_results.csv" := content]> fs
  | None => fs
  end.

(** ** More inputs to run the model on *)

Module Cases.




(** Alice's row with a seventh field, alone in a file, and the same file
    with the row cut after its sixth field. *)
Definition wide_row : list string :=
  ["Alice"; "90"; "85"; "70"; "95"; "100"; "2024"].
Definition w_wide : world := Demo.with_students [Demo.csv_header; wide_row].
Definition w_alice : world :=
  Demo.with_students [Demo.csv_header; Demo.alice_row].

End Cases.

(** * Properties *)

(** ** Rounding *)



(** ** The evaluator *)

Lemma getitem_Some (d : gmap string value) k v :
  d !! k = Some v → getitem d k = Ok v.
Proof. unfold getitem. by intros ->. Qed.

Lemma getitem_None (d : gmap string value) k :
  d !! k = None → getitem d k = Raise (KeyError k).
Proof. unfold getitem. by intros ->. Qed.

Lemma record_fields_size (student : gmap string value) :
  dom student = record_fields → size student = 6%nat.
Proof.
  intros Hdom. rewrite <- size_dom, Hdom. by vm_compute.
Qed.

Lemma average_body_ints (student : gmap string value) (cs ds cf dl sf : Z) :
  student !! "cyber_security" = Some (VInt cs) →
  student !! "data_science" = Some (VInt ds) →
  student !! "computing_foundation" = Some (VInt cf) →
  student !! "digital_literacy" = Some (VInt dl) →
  student !! "software_foundation" = Some (VInt sf) →
  size student ≠ 1%nat →
  average_body student =
    Ok (py_round (Qred (inject_Z (cs + ds + cf + dl + sf)
                        / inject_Z (Z.of_nat (size student) - 1))) 2).
Proof.
  intros Hcs Hds Hcf Hdl Hsf Hsize. unfold average_body.
  rewrite (getitem_Some _ _ _ Hcs), (getitem_Some _ _ _ Hds),
    (getitem_Some _ _ _ Hcf), (getitem_Some _ _ _ Hdl), (getitem_Some _ _ _ Hsf).
  simpl. rewrite bool_decide_eq_false_2 by lia. reflexivity.
Qed.

Lemma calculate_average_of_ints (student : gmap string value)
    (cs ds cf dl sf : Z) (w : world) :
  dom student = record_fields →
  student !! "cyber_security" = Some (VInt cs) →
  student !! "data_science" = Some (VInt ds) →
  student !! "computing_foundation" = Some (VInt cf) →
  student !! "digital_literacy" = Some (VInt dl) →
  student !! "software_foundation" = Some (VInt sf) →
  calculate_average student w =
    (w, Ok (Some (py_round (Qred (inject_Z (cs + ds + cf + dl + sf) / 5)) 2))).
Proof.
  intros Hdom Hcs Hds Hcf Hdl Hsf.
  pose proof (record_fields_size _ Hdom) as Hsize.
  unfold calculate_average, try_except.
  unfold mbind, M_bind, lift.
  rewrite (average_body_ints _ _ _ _ _ _ Hcs Hds Hcf Hdl Hsf) by lia.
  rewrite Hsize. reflexivity.
Qed.


(** ** Letter grades *)

Lemma Qle_bool_false (x y : Q) : Qle_bool x y = false ↔ (y < x)%Q.
Proof.
  rewrite <- not_true_iff_false, Qle_bool_iff. split.
  - apply Qnot_le_lt.
  - apply Qlt_not_le.
Qed.

(** C4. [assign_grade] maps every average to exactly one letter, by the
    inclusive lower bounds 80, 70, 60, 50, 40; the pass indicator is chosen
    exactly when the average is at least 40.  The four boundary values of
    the specification are included. *)
Theorem assign_grade_thresholds (average : Q) :
  (assign_grade average = "A" ↔ (80 <= average)%Q)
  ∧ (assign_grade average = "B" ↔ (70 <= average)%Q ∧ (average < 80)%Q)
  ∧ (assign_grade average = "C" ↔ (60 <= average)%Q ∧ (average < 70)%Q)
  ∧ (assign_grade average = "D" ↔ (50 <= average)%Q ∧ (average < 60)%Q)
  ∧ (assign_grade average = "E" ↔ (40 <= average)%Q ∧ (average < 50)%Q)
  ∧ (assign_grade average = "F" ↔ (average < 40)%Q)
  ∧ (pass_fail average = "Congratulations, you passed!" ↔ (40 <= average)%Q)
  ∧ (pass_fail average = "Fail" ↔ (average < 40)%Q)
  ∧ (assign_grade 40 = "E" ∧ pass_fail 40 = "Congratulations, you passed!")
  ∧ (assign_grade (3999 # 100) = "F" ∧ pass_fail (3999 # 100) = "Fail")
  ∧ assign_grade 80 = "A"
  ∧ assign_grade (7999 # 100) = "B".
Proof.
  unfold assign_grade, pass_fail.
  destruct (Qle_bool 80 average) eqn:H80;
    destruct (Qle_bool 70 average) eqn:H70;
    destruct (Qle_bool 60 average) eqn:H60;
    destruct (Qle_bool 50 average) eqn:H50;
    destruct (Qle_bool 40 average) eqn:H40;
    rewrite ?Qle_bool_iff, ?Qle_bool_false in *;
    repeat split; intros; try done; try lra;
    repeat match goal with Hc : _ ∧ _ |- _ => destruct Hc end; lra.
Qed.

(** The same two boundaries with the binary doubles that the literals
    [39.99] and [79.99] denote. *)
Example assign_grade_double_boundaries :
  assign_grade (5628092159329567 # 140737488355328) = "F"
  ∧ pass_fail (5628092159329567 # 140737488355328) = "Fail"
  ∧ assign_grade (5628795846771343 # 70368744177664) = "B".
Proof. repeat split; reflexivity. Qed.

(** ** Minimum, maximum and range *)

Lemma best_of_lt_ints (items : list Z) (current : Z) :
  ∃ m, best_of py_lt (VInt current) (VInt <$> items) = Ok (VInt m)
       ∧ m ∈ current :: items
       ∧ Forall (λ s, m ≤ s) (current :: items).
Proof.
  revert current. induction items as [|item items IH]; intros current.
  - exists current. split; [done|]. split; [apply list_elem_of_here|].
    by repeat constructor.
  - simpl. unfold mbind, result_bind. simpl.
    destruct (IH (if bool_decide (item < current) then item else current))
      as (m & Hm & Hmem & Hall).
    exists m. split.
    { rewrite <- Hm. by case_bool_decide. }
    apply Forall_cons in Hall as [Hhd Hall].
    case_bool_decide; split.
    + by apply list_elem_of_further.
    + repeat constructor; [lia | done | done].
    + apply elem_of_cons in Hmem as [-> | Hmem];
        [apply list_elem_of_here | by do 2 apply list_elem_of_further].
    + repeat constructor; [done | lia | done].
Qed.

Lemma best_of_gt_ints (items : list Z) (current : Z) :
  ∃ m, best_of py_gt (VInt current) (VInt <$> items) = Ok (VInt m)
       ∧ m ∈ current :: items
       ∧ Forall (λ s, s ≤ m) (current :: items).
Proof.
  revert current. induction items as [|item items IH]; intros current.
  - exists current. split; [done|]. split; [apply list_elem_of_here|].
    by repeat constructor.
  - simpl. unfold mbind, result_bind. simpl.
    destruct (IH (if bool_decide (current < item) then item else current))
      as (m & Hm & Hmem & Hall).
    exists m. split.
    { rewrite <- Hm. by case_bool_decide. }
    apply Forall_cons in Hall as [Hhd Hall].
    case_bool_decide; split.
    + by apply list_elem_of_further.
    + repeat constructor; [lia | done | done].
    + apply elem_of_cons in Hmem as [-> | Hmem];
        [apply list_elem_of_here | by do 2 apply list_elem_of_further].
    + repeat constructor; [done | lia | done].
Qed.

Lemma min_max_range_of_ints (scores : list Z) :
  scores ≠ [] →
  ∃ min_score max_score : Z,
    calculate_min_max_range (VInt <$> scores)
      = Ok (VInt min_score, VInt max_score, VInt (max_score - min_score)).
Proof.
  destruct scores as [|s scores]; [done|]. intros _.
  destruct (best_of_lt_ints scores s) as (mn & Hmn & _).
  destruct (best_of_gt_ints scores s) as (mx & Hmx & _).
  exists mn, mx. unfold calculate_min_max_range.
  change (VInt <$> s :: scores) with (VInt s :: (VInt <$> scores)).
  unfold py_min, py_max. rewrite Hmn, Hmx. reflexivity.
Qed.

(** C8. On a non-empty list of integer scores [calculate_min_max_range]
    returns [(min_score, max_score, max_score - min_score)], where
    [min_score] and [max_score] are members of the list that bound every
    score; hence [min_score <= max_score] and the range is not negative. *)
Theorem calculate_min_max_range_ints (scores : list Z) :
  scores ≠ [] →
  ∃ min_score max_score : Z,
    calculate_min_max_range (VInt <$> scores)
      = Ok (VInt min_score, VInt max_score, VInt (max_score - min_score))
    ∧ min_score ∈ scores ∧ max_score ∈ scores
    ∧ Forall (λ s, min_score ≤ s ∧ s ≤ max_score) scores
    ∧ min_score ≤ max_score
    ∧ 0 ≤ max_score - min_score.
Proof.
  destruct scores as [|s scores]; [done|]. intros _.
  destruct (best_of_lt_ints scores s) as (mn & Hmn & Hmn_in & Hmn_all).
  destruct (best_of_gt_ints scores s) as (mx & Hmx & Hmx_in & Hmx_all).
  exists mn, mx.
  assert (Hle : mn ≤ mx).
  { rewrite Forall_forall in Hmn_all. by apply Hmn_all. }
  split.
  { unfold calculate_min_max_range.
    change (VInt <$> s :: scores) with (VInt s :: (VInt <$> scores)).
    unfold py_min, py_max. rewrite Hmn, Hmx. reflexivity. }
  repeat split; try done; try lia.
  rewrite Forall_forall in Hmn_all, Hmx_all |- *.
  intros x Hx. split; [by apply Hmn_all | by apply Hmx_all].
Qed.

(** ** The aggregator *)

(** Closed evaluations: both sides are compared by the virtual machine. *)
Ltac vm_refl :=
  lazymatch goal with
  | |- _ = ?rhs => vm_cast_no_check (eq_refl rhs)
  end.

Ltac unfold_monad :=
  unfold mbind, mret, M_bind, M_ret, result_bind, result_ret,
    lift, raise, sys_exit, try_except in *.

Lemma py_add_raise (a b : value) (e : exn) :
  py_add a b = Raise e → e = TypeError.
Proof. destruct a, b; simpl; congruence. Qed.

Lemma py_truediv_raise (a : value) (n : Z) (e : exn) :
  py_truediv a n = Raise e → e = TypeError ∨ e = ZeroDivisionError.
Proof.
  destruct a; simpl; try case_bool_decide; intros [= <-]; auto.
Qed.

(** Once the five scores are present, the [except KeyError] clause of
    [calculate_average] has nothing to catch. *)
Lemma average_body_no_KeyError (student : gmap string value) (k : string) :
  Forall (λ key, is_Some (student !! key)) score_keys →
  average_body student ≠ Raise (KeyError k).
Proof.
  intros Hall. unfold score_keys in Hall.
  repeat match goal with
         | Hf : Forall _ (_ :: _) |- _ => apply Forall_cons in Hf as [[? ?] Hf]
         end.
  unfold average_body.
  repeat erewrite getitem_Some by eassumption.
  unfold_monad.
  repeat (cbv beta iota;
          match goal with
          | |- context [py_add ?a ?b] =>
              let Hadd := fresh "Hadd" in
              destruct (py_add a b) eqn:Hadd;
              [| apply py_add_raise in Hadd; congruence ]
          end).
  cbv beta iota.
  match goal with
  | |- context [py_truediv ?a ?n] =>
      let Hdiv := fresh "Hdiv" in
      destruct (py_truediv a n) eqn:Hdiv;
      [| apply py_truediv_raise in Hdiv as [-> | ->] ]; congruence
  end.
Qed.

Lemma calculate_average_present (student : gmap string value) (w : world) :
  Forall (λ key, is_Some (student !! key)) score_keys →
  (∃ average, calculate_average student w = (w, Ok (Some average)))
  ∨ (∃ e, calculate_average student w = (w, Raise e)).
Proof.
  intros Hall. unfold calculate_average. unfold_monad.
  destruct (average_body student) as [average | e] eqn:Hbody.
  - left. by exists average.
  - right. exists e. destruct e; try reflexivity.
    by apply average_body_no_KeyError in Hbody.
Qed.

(** One iteration of the loop either raises, or appends the record built
    from the fields of [student] and the derived values.  It never prints,
    and it never skips a record. *)
Lemma process_student_cases (student : gmap string value) (w : world) :
  (∃ e, process_student student w = (w, Raise e))
  ∨ (∃ name cs ds cf dl sf average min_score max_score score_range,
       student !! "name" = Some name
       ∧ student !! "cyber_security" = Some cs
       ∧ student !! "data_science" = Some ds
       ∧ student !! "computing_foundation" = Some cf
       ∧ student !! "digital_literacy" = Some dl
       ∧ student !! "software_foundation" = Some sf
       ∧ calculate_average student w = (w, Ok (Some average))
       ∧ calculate_min_max_range [cs; ds; cf; dl; sf]
           = Ok (min_score, max_score, score_range)
       ∧ process_student student w =
           (w, Ok (Some (student_results name cs ds cf dl sf (VFloat average)
                           (VStr (assign_grade average))
                           min_score max_score score_range
                           (VStr (pass_fail average)))))).
Proof.
  unfold process_student, score_keys. simpl mapM. unfold getitem.
  destruct (student !! "cyber_security") as [cs|] eqn:Hcs;
    [| left; by eexists].
  destruct (student !! "data_science") as [ds|] eqn:Hds;
    [| left; by eexists].
  destruct (student !! "computing_foundation") as [cf|] eqn:Hcf;
    [| left; by eexists].
  destruct (student !! "digital_literacy") as [dl|] eqn:Hdl;
    [| left; by eexists].
  destruct (student !! "software_foundation") as [sf|] eqn:Hsf;
    [| left; by eexists].
  assert (Hall : Forall (λ key, is_Some (student !! key)) score_keys).
  { repeat constructor; by eexists. }
  destruct (calculate_average_present student w Hall)
    as [[average Havg] | [e Havg]].
  2: { left. exists e. unfold_monad. simpl. by rewrite Havg. }
  unfold_monad. simpl. rewrite Havg.
  destruct (calculate_min_max_range [cs; ds; cf; dl; sf])
    as [[[min_score max_score] score_range] | e] eqn:Hmmr;
    [| left; by eexists].
  destruct (student !! "name") as [name|] eqn:Hname;
    [| left; by eexists].
  right. exists name, cs, ds, cf, dl, sf, average, min_score, max_score, score_range.
  by repeat split.
Qed.

Ltac solve_elem :=
  repeat first [apply list_elem_of_here | apply list_elem_of_further].

(** The first missing score stops the loop body at line 116, before
    [calculate_average] and its [except KeyError] are reached. *)
Lemma process_student_missing_score (student : gmap string value) (w : world) :
  ¬ Forall (λ key, is_Some (student !! key)) score_keys →
  ∃ k, k ∈ score_keys ∧ student !! k = None
       ∧ process_student student w = (w, Raise (KeyError k)).
Proof.
  intros Hnot. unfold process_student, score_keys in *. simpl mapM.
  unfold getitem.
  destruct (student !! "cyber_security") as [cs|] eqn:Hcs;
    [| exists "cyber_security"; split; [solve_elem | done]].
  destruct (student !! "data_science") as [ds|] eqn:Hds;
    [| exists "data_science"; split; [solve_elem | done]].
  destruct (student !! "computing_foundation") as [cf|] eqn:Hcf;
    [| exists "computing_foundation"; split; [solve_elem | done]].
  destruct (student !! "digital_literacy") as [dl|] eqn:Hdl;
    [| exists "digital_literacy"; split; [solve_elem | done]].
  destruct (student !! "software_foundation") as [sf|] eqn:Hsf;
    [| exists "software_foundation"; split; [solve_elem | done]].
  exfalso. apply Hnot. repeat constructor; by eexists.
Qed.

Lemma process_loop_cases (students results : list (gmap string value))
    (w : world) :
  (∃ e, process_loop students results w = (w, Raise e))
  ∨ (∃ new, process_loop students results w = (w, Ok (results ++ new))
            ∧ Forall2 (λ student r, process_student student w = (w, Ok (Some r)))
                students new).
Proof.
  revert results. induction students as [|student students IH]; intros results.
  - right. exists []. split; [|constructor].
    simpl. by rewrite app_nil_r.
  - simpl. unfold mbind, M_bind.
    destruct (process_student_cases student w) as [[e He] | Hok].
    + left. exists e. by rewrite He.
    + destruct Hok as (name & cs & ds & cf & dl & sf & average & mn & mx & rg
                       & _ & _ & _ & _ & _ & _ & _ & _ & Hstudent).
      rewrite Hstudent.
      destruct (IH (results ++ [student_results name cs ds cf dl sf
                      (VFloat average) (VStr (assign_grade average))
                      mn mx rg (VStr (pass_fail average))]))
        as [[e He] | (new & Hnew & Hall)].
      * left. by exists e.
      * right. eexists (_ :: new). split.
        -- rewrite Hnew. by rewrite <- app_assoc.
        -- by constructor.
Qed.

(** A record without one of its scores makes the whole call raise: no
    list is returned, and nothing is printed. *)
Lemma process_student_results_missing_score
    (students : list (gmap string value)) (student : gmap string value)
    (w : world) :
  student ∈ students →
  ¬ Forall (λ key, is_Some (student !! key)) score_keys →
  ∃ e, process_student_results students w = (w, Raise e).
Proof.
  intros Hin Hnot. unfold process_student_results.
  destruct (process_loop_cases students [] w) as [He | (new & _ & Hall)];
    [done|].
  exfalso.
  destruct (process_student_missing_score student w Hnot) as (k & _ & _ & Hk).
  apply list_elem_of_lookup in Hin as [i Hi].
  destruct (Forall2_lookup_l _ _ _ _ _ Hall Hi) as (r & _ & Hr).
  congruence.
Qed.

(** C9. Whenever [process_student_results] returns, the returned records
    match the input records one to one and in order, and each returned
    record holds the name and the five scores of its source record,
    unchanged, next to the six derived fields. *)
Theorem process_student_results_keeps_scores
    (students results : list (gmap string value)) (w w' : world) :
  process_student_results students w = (w', Ok results) →
  Forall2 (λ student r,
             dom r = list_to_set header
             ∧ ∀ k, k ∈ "name" :: score_keys →
                    is_Some (student !! k) ∧ r !! k = student !! k)
    students results.
Proof.
  unfold process_student_results. intros Hrun.
  destruct (process_loop_cases students [] w) as [[e He] | (new & Hnew & Hall)];
    [congruence|].
  rewrite Hnew in Hrun. injection Hrun as _ <-. simpl.
  eapply Forall2_impl; [exact Hall|].
  intros student r Hr. simpl in Hr.
  destruct (process_student_cases student w) as [[e He] | Hok]; [congruence|].
  destruct Hok as (name & cs & ds & cf & dl & sf & average & mn & mx & rg
                   & Hname & Hcs & Hds & Hcf & Hdl & Hsf & _ & _ & Hstudent).
  rewrite Hstudent in Hr. injection Hr as <-.
  split.
  - unfold student_results, header.
    rewrite !dom_insert_L, dom_singleton_L. cbn [list_to_set].
    by rewrite (right_id_L ∅ (∪)).
  - intros k Hk. unfold score_keys in Hk.
    repeat (apply elem_of_cons in Hk as [-> | Hk];
            [split; [by eexists |];
             match goal with
             | Hfield : student !! ?key = Some _ |- _ !! ?key = _ =>
                 rewrite Hfield; by vm_compute
             end |]).
    by apply elem_of_nil in Hk.
Qed.

(** *** Records as the reader builds them *)

Lemma student_record_dom name cs ds cf dl sf :
  dom (student_record name cs ds cf dl sf) = record_fields.
Proof.
  unfold student_record, record_fields, score_keys.
  rewrite !dom_insert_L, dom_singleton_L. cbn [list_to_set].
  by rewrite (right_id_L ∅ (∪)).
Qed.

Lemma student_record_lookup name cs ds cf dl sf :
  let student := student_record name cs ds cf dl sf in
  student !! "name" = Some (VStr name)
  ∧ student !! "cyber_security" = Some (VInt cs)
  ∧ student !! "data_science" = Some (VInt ds)
  ∧ student !! "computing_foundation" = Some (VInt cf)
  ∧ student !! "digital_literacy" = Some (VInt dl)
  ∧ student !! "software_foundation" = Some (VInt sf).
Proof. repeat split; by vm_compute. Qed.

(** On such a record the loop body succeeds. *)
Lemma process_student_record name cs ds cf dl sf (w : world) :
  ∃ r, process_student (student_record name cs ds cf dl sf) w = (w, Ok (Some r)).
Proof.
  destruct (student_record_lookup name cs ds cf dl sf)
    as (Hname & Hcs & Hds & Hcf & Hdl & Hsf).
  pose proof (student_record_dom name cs ds cf dl sf) as Hdom.
  destruct (min_max_range_of_ints [cs; ds; cf; dl; sf]) as (mn & mx & Hmmr);
    [done|].
  unfold process_student, score_keys. simpl mapM. unfold getitem.
  rewrite Hname, Hcs, Hds, Hcf, Hdl, Hsf.
  unfold_monad. cbv beta iota.
  rewrite (calculate_average_of_ints _ cs ds cf dl sf w Hdom Hcs Hds Hcf Hdl Hsf).
  change [VInt cs; VInt ds; VInt cf; VInt dl; VInt sf]
    with (VInt <$> [cs; ds; cf; dl; sf]).
  rewrite Hmmr. by eexists.
Qed.

(** On a list of such records the call returns one result per record, in
    the order of the input. *)
Lemma process_student_results_records (students : list (gmap string value))
    (w : world) :
  Forall (λ student, ∃ name cs ds cf dl sf,
            student = student_record name cs ds cf dl sf) students →
  ∃ results,
    process_student_results students w = (w, Ok results)
    ∧ Forall2 (λ student r, process_student student w = (w, Ok (Some r)))
        students results.
Proof.
  intros Hrecords. unfold process_student_results.
  destruct (process_loop_cases students [] w) as [[e He] | (new & Hnew & Hall)].
  - exfalso. revert He. generalize (@nil (gmap string value)).
    induction Hrecords as [|student students Hstudent _ IH]; intros results.
    + done.
    + destruct Hstudent as (name & cs & ds & cf & dl & sf & ->).
      destruct (process_student_record name cs ds cf dl sf w) as [r Hr].
      simpl. unfold mbind, M_bind. rewrite Hr. apply IH.
  - exists new. by split.
Qed.

(** C1. A record without one of the five scores is not skipped: line 116
    reads the scores before [calculate_average] and its handler are reached,
    so the [KeyError] leaves [process_student_results], nothing is printed
    and the records after it are not processed.  [calculate_average] alone
    would have printed the diagnostic and returned [None]. *)
Theorem process_student_results_missing_field_escapes :
  process_student_results [Demo.dan; Demo.bob] Demo.w0
    = (Demo.w0, Raise (KeyError "software_foundation"))
  ∧ calculate_average Demo.dan Demo.w0
    = (World [MissingDataKey "software_foundation"] ∅, Ok None).
Proof. split; by vm_compute. Qed.

(** C6. With a record that lacks a score in the input, no list is
    returned at all, although the two other records evaluate on their
    own: the call does not return the evaluated records of the input with
    the incomplete one removed. *)
Theorem process_student_results_incomplete_record_no_list :
  process_student_results [Demo.alice; Demo.dan; Demo.bob] Demo.w0
    = (Demo.w0, Raise (KeyError "software_foundation"))
  ∧ process_student_results [Demo.alice; Demo.bob] Demo.w0
    = (Demo.w0, Ok [Demo.alice_results; Demo.bob_results]).
Proof. split; vm_refl. Qed.

(** ** The reader *)

Section Reader.
Context `{Builtins}.

Lemma tell_nil w : tell [] w = w.
Proof. destruct w. unfold tell. simpl. by rewrite app_nil_r. Qed.

Lemma tell_app log1 log2 w : tell log2 (tell log1 w) = tell (log1 ++ log2) w.
Proof. unfold tell. simpl. by rewrite app_assoc. Qed.

(** A row of six fields or more either becomes a record or is invalid. *)
Lemma row_record_cases (row : list string) :
  (6 ≤ length row)%nat →
  (¬ invalid_row row
   ∧ ∃ name cs ds cf dl sf,
       row_record row = Ok (student_record name cs ds cf dl sf))
  ∨ (invalid_row row ∧ row_record row = Raise ValueError).
Proof.
  intros Hlen.
  destruct row as [|f0 [|f1 [|f2 [|f3 [|f4 [|f5 rest]]]]]];
    simpl in Hlen; try lia.
  unfold row_record, row_item, py_int. unfold_monad. simpl.
  destruct (int_of_str f1) as [cs|] eqn:H1;
    [| right; split; [split; [simpl; lia | exists 1%nat, f1; split; [lia | done]] | done]].
  destruct (int_of_str f2) as [ds|] eqn:H2;
    [| right; split; [split; [simpl; lia | exists 2%nat, f2; split; [lia | done]] | done]].
  destruct (int_of_str f3) as [cf|] eqn:H3;
    [| right; split; [split; [simpl; lia | exists 3%nat, f3; split; [lia | done]] | done]].
  destruct (int_of_str f4) as [dl|] eqn:H4;
    [| right; split; [split; [simpl; lia | exists 4%nat, f4; split; [lia | done]] | done]].
  destruct (int_of_str f5) as [sf|] eqn:H5;
    [| right; split; [split; [simpl; lia | exists 5%nat, f5; split; [lia | done]] | done]].
  left. split; [| by exists f0, cs, ds, cf, dl, sf].
  intros (_ & i & s & [Hi1 Hi5] & Hs & Hnone).
  destruct i as [|[|[|[|[|[|i]]]]]]; try lia;
    simpl in Hs; injection Hs as <-; congruence.
Qed.

Lemma parse_row_Ok (row : list string) (student : gmap string value) w :
  row_record row = Ok student → parse_row row w = (w, Ok student).
Proof. intros Hrow. unfold parse_row. unfold_monad. by rewrite Hrow. Qed.

Lemma parse_row_ValueError (row : list string) w :
  row_record row = Raise ValueError →
  parse_row row w = (tell [InvalidData row] w, Raise (SystemExit 1)).
Proof. intros Hrow. unfold parse_row. unfold_monad. by rewrite Hrow. Qed.

(** One step of the loop, by the three kinds of row. *)
Lemma read_rows_short (row : list string) rows data w :
  (length row < 6)%nat →
  read_rows (row :: rows) data w = read_rows rows data (tell [MissingDataRow row] w).
Proof.
  intros Hlen. simpl. rewrite bool_decide_eq_true_2 by done. reflexivity.
Qed.

Lemma read_rows_record (row : list string) rows data student w :
  (6 ≤ length row)%nat → row_record row = Ok student →
  read_rows (row :: rows) data w = read_rows rows (data ++ [student]) w.
Proof.
  intros Hlen Hrow. simpl. rewrite bool_decide_eq_false_2 by lia.
  unfold mbind, M_bind. by rewrite (parse_row_Ok _ _ _ Hrow).
Qed.

Lemma read_rows_invalid (row : list string) rows data w :
  (6 ≤ length row)%nat → row_record row = Raise ValueError →
  read_rows (row :: rows) data w
    = (tell [InvalidData row] w, Raise (SystemExit 1)).
Proof.
  intros Hlen Hrow. simpl. rewrite bool_decide_eq_false_2 by lia.
  unfold mbind, M_bind. by rewrite (parse_row_ValueError _ _ Hrow).
Qed.

(** What the loop prints and returns does not depend on the world it
    starts in; it never touches the files, and [sys.exit(1)] is the only
    way it stops early. *)
Lemma read_rows_outcome (rows : list (list string))
    (data : list (gmap string value)) :
  ∃ log r, (∀ w, read_rows rows data w = (tell log w, r))
           ∧ ((∃ data', r = Ok data') ∨ r = Raise (SystemExit 1)).
Proof.
  revert data. induction rows as [|row rows IH]; intros data.
  - exists [], (Ok data). split; [|by eauto].
    intros w. by rewrite tell_nil.
  - destruct (decide (length row < 6)%nat) as [Hlen | Hlen].
    + destruct (IH data) as (log & r & Hrun & Hr).
      exists (MissingDataRow row :: log), r. split; [|done]. intros w.
      by rewrite read_rows_short, Hrun, tell_app.
    + destruct (row_record_cases row) as [[_ Hok] | [_ Hbad]]; [lia | |].
      * destruct Hok as (name & cs & ds & cf & dl & sf & Hrow).
        destruct (IH (data ++ [student_record name cs ds cf dl sf]))
          as (log & r & Hrun & Hr).
        exists log, r. split; [|done]. intros w.
        by rewrite (read_rows_record row rows data _ w ltac:(lia) Hrow).
      * exists [InvalidData row], (Raise (SystemExit 1)).
        split; [|by right]. intros w.
        by rewrite (read_rows_invalid row rows data w ltac:(lia) Hbad).
Qed.

(** Reading [pre ++ rest] is reading [pre], then [rest] with the records
    collected so far, unless [pre] stops the run. *)
Lemma read_rows_app (pre rest : list (list string))
    (data : list (gmap string value)) (w : world) :
  read_rows (pre ++ rest) data w =
    match read_rows pre data w with
    | (w', Ok data') => read_rows rest data' w'
    | (w', Raise e) => (w', Raise e)
    end.
Proof.
  revert data w. induction pre as [|row pre IH]; intros data w; [done|].
  simpl. case_bool_decide.
  - unfold mbind, M_bind, print. apply IH.
  - unfold mbind, M_bind. destruct (parse_row row w) as [w' [student | e]];
      [apply IH | done].
Qed.

Lemma invalid_row_dec (row : list string) : invalid_row row ∨ ¬ invalid_row row.
Proof.
  destruct (decide (6 ≤ length row)%nat) as [Hlen | Hlen].
  - destruct (row_record_cases row Hlen) as [[Hok _] | [Hbad _]]; auto.
  - right. intros [Hlen' _]. lia.
Qed.

Lemma invalid_row_ValueError (row : list string) :
  invalid_row row → (6 ≤ length row)%nat ∧ row_record row = Raise ValueError.
Proof.
  intros Hinv. pose proof Hinv as [Hlen _]. split; [done|].
  by destruct (row_record_cases row Hlen) as [[Hok _] | [_ Hbad]].
Qed.

(** The first invalid row of a list that has one. *)
Lemma first_invalid_row (rows : list (list string)) :
  Exists invalid_row rows →
  ∃ pre bad post,
    rows = pre ++ bad :: post ∧ invalid_row bad
    ∧ Forall (λ r, ¬ invalid_row r) pre.
Proof.
  induction rows as [|row rows IH]; intros Hex.
  - by apply Exists_nil in Hex.
  - destruct (invalid_row_dec row) as [Hinv | Hok].
    + by exists [], row, rows.
    + apply Exists_cons in Hex as [Hinv | Hex]; [done|].
      destruct (IH Hex) as (pre & bad & post & -> & Hbad & Hpre).
      exists (row :: pre), bad, post. split; [done|]. split; [done|].
      by constructor.
Qed.

(** Without an invalid row the loop returns, having printed one line per
    short row. *)
Lemma read_rows_valid (rows : list (list string))
    (data : list (gmap string value)) :
  Forall (λ r, ¬ invalid_row r) rows →
  ∃ data', ∀ w,
    read_rows rows data w =
      (tell (MissingDataRow <$> filter (λ r, length r < 6)%nat rows) w, Ok data').
Proof.
  intros Hrows. revert data.
  induction Hrows as [|row rows Hrow _ IH]; intros data.
  - exists data. intros w. by rewrite tell_nil.
  - destruct (decide (length row < 6)%nat) as [Hlen | Hlen].
    + destruct (IH data) as [data' Hrun]. exists data'. intros w.
      rewrite read_rows_short, Hrun, tell_app by done.
      by rewrite filter_cons_True.
    + destruct (row_record_cases row) as [[_ Hok] | [Hbad _]]; [lia | | done].
      destruct Hok as (name & cs & ds & cf & dl & sf & Hrec).
      destruct (IH (data ++ [student_record name cs ds cf dl sf]))
        as [data' Hrun].
      exists data'. intros w.
      rewrite (read_rows_record row rows data _ w ltac:(lia) Hrec), Hrun.
      by rewrite filter_cons_False.
Qed.

(** The loop stops at the first invalid row. *)
Lemma read_rows_first_invalid (pre post : list (list string))
    (bad : list string) (data : list (gmap string value)) (w : world) :
  Forall (λ r, ¬ invalid_row r) pre → invalid_row bad →
  read_rows (pre ++ bad :: post) data w =
    (tell ((MissingDataRow <$> filter (λ r, length r < 6)%nat pre)
           ++ [InvalidData bad]) w,
     Raise (SystemExit 1)).
Proof.
  intros Hpre Hbad.
  destruct (read_rows_valid pre data Hpre) as [data' Hrun].
  destruct (invalid_row_ValueError bad Hbad) as [Hlen Hval].
  rewrite read_rows_app, Hrun.
  by rewrite (read_rows_invalid bad post data' _ Hlen Hval), tell_app.
Qed.

(** Past the header, [read_student_data] is the loop. *)
Lemma read_student_data_rows (filename : string) (hdr : list string)
    (rows : list (list string)) (w : world) :
  files w !! filename = Some (hdr :: rows) →
  read_student_data filename w = read_rows rows [] w.
Proof.
  intros Hfile. unfold read_student_data, open_csv. unfold_monad.
  rewrite Hfile. simpl.
  destruct (read_rows_outcome rows []) as (log & r & Hrun & Hr). rewrite Hrun.
  by destruct Hr as [[data ->] | ->].
Qed.

Lemma main_read_raises (w w' : world) (e : exn) :
  read_student_data "students.csv" w = (w', Raise e) →
  main w = (w', Raise e).
Proof. intros Hread. unfold main. unfold_monad. by rewrite Hread. Qed.

(** C7. A data row of fewer than six fields adds no record and does not
    stop the run: what [read_student_data] returns (the records, or the
    abort of another row) is what it returns for the same file without
    that row; and when the rows before it let the reader get there, the
    only difference in the output is the diagnostic for that row. *)
Theorem read_student_data_skips_short_row (filename : string)
    (hdr row : list string) (pre post : list (list string)) (w w' : world) :
  files w !! filename = Some (hdr :: pre ++ row :: post) →
  files w' !! filename = Some (hdr :: pre ++ post) →
  (length row < 6)%nat →
  (read_student_data filename w).2 = (read_student_data filename w').2
  ∧ (Forall (λ r, ¬ invalid_row r) pre →
     ∃ log1 log2,
       stdout (read_student_data filename w).1
         = stdout w ++ log1 ++ MissingDataRow row :: log2
       ∧ stdout (read_student_data filename w').1
         = stdout w' ++ log1 ++ log2).
Proof.
  intros Hfile Hfile' Hlen.
  rewrite (read_student_data_rows _ _ _ _ Hfile),
    (read_student_data_rows _ _ _ _ Hfile').
  rewrite !read_rows_app.
  destruct (read_rows_outcome pre []) as (log1 & r1 & Hpre & _).
  rewrite !Hpre. destruct r1 as [data1 | e].
  - rewrite read_rows_short by done.
    destruct (read_rows_outcome post data1) as (log2 & r2 & Hpost & _).
    rewrite !Hpost. split; [done|]. intros _.
    exists log1, log2. simpl. by rewrite <- !app_assoc.
  - split; [done|]. intros Hvalid.
    destruct (read_rows_valid pre [] Hvalid) as [data' Hrun].
    specialize (Hpre w). rewrite Hrun in Hpre. by injection Hpre.
Qed.

(** C5. When some data row of six fields or more has a score that [int]
    rejects, the run stops at the first such row: the last line printed
    names that row, only the short rows before it were reported, the rows
    after it play no part, no record list is returned, no file is written
    and the exit status is 1. *)
Theorem main_invalid_score_aborts (hdr : list string)
    (rows : list (list string)) (w : world) :
  files w !! "students.csv" = Some (hdr :: rows) →
  Exists invalid_row rows →
  ∃ pre bad post,
    rows = pre ++ bad :: post
    ∧ invalid_row bad
    ∧ Forall (λ r, ¬ invalid_row r) pre
    ∧ let w' := tell ((MissingDataRow <$> filter (λ r, length r < 6)%nat pre)
                      ++ [InvalidData bad]) w in
      read_student_data "students.csv" w = (w', Raise (SystemExit 1))
      ∧ main w = (w', Raise (SystemExit 1))
      ∧ files w' = files w
      ∧ exit_status (Raise (SystemExit 1)) = 1.
Proof.
  intros Hfile Hex.
  destruct (first_invalid_row rows Hex) as (pre & bad & post & -> & Hbad & Hpre).
  exists pre, bad, post. split; [done|]. split; [done|]. split; [done|].
  assert (Hread : read_student_data "students.csv" w =
            (tell ((MissingDataRow <$> filter (λ r, length r < 6)%nat pre)
                   ++ [InvalidData bad]) w, Raise (SystemExit 1))).
  { rewrite (read_student_data_rows _ _ _ _ Hfile).
    by apply read_rows_first_invalid. }
  simpl. split; [done|]. split; [by apply main_read_raises | done].
Qed.

Lemma read_student_data_no_header (filename : string) (w : world) :
  files w !! filename = Some [] →
  read_student_data filename w = (w, Raise StopIteration).
Proof.
  intros Hfile. unfold read_student_data, open_csv. unfold_monad.
  by rewrite Hfile.
Qed.

(** C10. On a file without any line, [next(csv_reader)] raises
    [StopIteration], which no handler catches: [read_student_data] returns
    no list and prints nothing, and the script ends there with a failure
    status, not through [sys.exit]. *)
Theorem read_student_data_empty_file (filename : string) (w : world) :
  files w !! filename = Some [] →
  read_student_data filename w = (w, Raise StopIteration)
  ∧ (filename = "students.csv" → main w = (w, Raise StopIteration))
  ∧ (∀ code, Raise StopIteration ≠ Raise (A:=unit) (SystemExit code))
  ∧ exit_status (Raise StopIteration) = 1.
Proof.
  intros Hfile.
  pose proof (read_student_data_no_header filename w Hfile) as Hread.
  split; [done|]. split; [|done].
  intros ->. by apply main_read_raises.
Qed.

Lemma main_header_only_run (hdr : list string) (w : world) :
  files w !! "students.csv" = Some [hdr] →
  main w = (tell [ProcessingCompleted] w, Ok tt).
Proof.
  intros Hfile. unfold main. unfold_monad.
  rewrite (read_student_data_rows _ _ _ _ Hfile). reflexivity.
Qed.

(** C2, as the code has it. On a file with a header row only, the run
    ends with status 0 and writes nothing; [write_results_to_csv] is not
    called, so the only line printed is the closing message. *)
Theorem main_header_only (hdr : list string) (w : world) :
  files w !! "students.csv" = Some [hdr] →
  main w = (tell [ProcessingCompleted] w, Ok tt)
  ∧ exit_status (Ok tt) = 0
  ∧ files (tell [ProcessingCompleted] w) = files w
  ∧ stdout (tell [ProcessingCompleted] w) = stdout w ++ [ProcessingCompleted].
Proof.
  intros Hfile. split; [by apply (main_header_only_run hdr) | done].
Qed.

End Reader.

(** C2, as the specification has it, fails on a header-only file: no
    "nothing to write" line is printed. *)
Lemma main_header_only_no_diagnostic :
  ¬ ∃ w', @main Demo.builtins Demo.w_header = (w', Ok tt)
          ∧ files w' !! "student_results.csv" = None
          ∧ NoDataToWrite ∈ stdout w'.
Proof.
  intros (w' & Hrun & _ & Hin).
  rewrite (main_header_only_run Demo.csv_header) in Hrun
    by apply lookup_singleton_eq.
  injection Hrun as <-. simpl in Hin.
  apply elem_of_cons in Hin as [Heq | Hin]; [done|].
  by apply elem_of_nil in Hin.
Qed.

(** * Further properties *)

(** ** [calculate_average] on other records *)



(** X2. When a score is missing and the scores before it in the sum are
    integers, [calculate_average] prints the name of the first missing key
    and returns [None]; nothing is raised. *)
Theorem calculate_average_first_missing (student : gmap string value)
    (pre post : list string) (k : string) (w : world) :
  score_keys = pre ++ k :: post →
  Forall (λ key, ∃ n, student !! key = Some (VInt n)) pre →
  student !! k = None →
  calculate_average student w = (tell [MissingDataKey k] w, Ok None).
Proof.
  unfold score_keys. intros Hkeys Hpre Hk.
  destruct pre as [|k1 [|k2 [|k3 [|k4 [|k5 pre]]]]];
    simplify_eq/=; try (by destruct pre);
    repeat match goal with
           | Hf : Forall _ (_ :: _) |- _ => apply Forall_cons in Hf as [[? ?] Hf]
           end;
    unfold calculate_average, average_body, getitem; unfold_monad;
    repeat match goal with
           | Hl : student !! _ = _ |- _ => rewrite Hl; clear Hl
           end;
    reflexivity.
Qed.


(** ** Letter grades and the pass mark together *)

Ltac grade_cases a :=
  unfold assign_grade, pass_fail;
  destruct (Qle_bool 80 a) eqn:?;
    [| destruct (Qle_bool 70 a) eqn:?;
       [| destruct (Qle_bool 60 a) eqn:?;
          [| destruct (Qle_bool 50 a) eqn:?;
             [| destruct (Qle_bool 40 a) eqn:? ]]]];
  rewrite ?Qle_bool_iff, ?Qle_bool_false in *.

(** X4. A higher average never gets a worse letter. *)
Theorem assign_grade_monotone (a1 a2 : Q) :
  (a1 <= a2)%Q →
  (grade_rank (assign_grade a1) ≤ grade_rank (assign_grade a2))%nat.
Proof.
  intros Hle. grade_cases a1; grade_cases a2;
    first [ by vm_compute; lia | exfalso; lra ].
Qed.

(** X5. The pass text of line 128 and the letter agree: a student fails
    exactly when the letter is F. *)
Theorem pass_fail_iff_grade_F (average : Q) :
  pass_fail average = "Fail" ↔ assign_grade average = "F".
Proof.
  unfold assign_grade, pass_fail.
  destruct (Qle_bool 40 average) eqn:H40;
    destruct (Qle_bool 80 average) eqn:H80;
    destruct (Qle_bool 70 average) eqn:H70;
    destruct (Qle_bool 60 average) eqn:H60;
    destruct (Qle_bool 50 average) eqn:H50;
    rewrite ?Qle_bool_iff, ?Qle_bool_false in *;
    split; intros Heq; try done; exfalso; lra.
Qed.

(** ** Minimum, maximum and range of integer scores *)

Lemma min_max_range_bounds (scores : list Z) :
  scores ≠ [] →
  ∃ mn mx : Z,
    calculate_min_max_range (VInt <$> scores)
      = Ok (VInt mn, VInt mx, VInt (mx - mn))
    ∧ mn ∈ scores ∧ mx ∈ scores
    ∧ Forall (λ s, mn ≤ s ∧ s ≤ mx) scores.
Proof.
  destruct scores as [|s scores]; [done|]. intros _.
  destruct (best_of_lt_ints scores s) as (mn & Hmn & Hmn_in & Hmn_all).
  destruct (best_of_gt_ints scores s) as (mx & Hmx & Hmx_in & Hmx_all).
  exists mn, mx. split.
  { unfold calculate_min_max_range.
    change (VInt <$> s :: scores) with (VInt s :: (VInt <$> scores)).
    unfold py_min, py_max. rewrite Hmn, Hmx. reflexivity. }
  split; [done|]. split; [done|].
  rewrite Forall_forall in Hmn_all, Hmx_all |- *.
  intros x Hx. split; [by apply Hmn_all | by apply Hmx_all].
Qed.

(** X6. The result does not depend on the order of the scores. *)
Theorem calculate_min_max_range_permutation (scores1 scores2 : list Z) :
  scores1 ≡ₚ scores2 →
  calculate_min_max_range (VInt <$> scores1)
    = calculate_min_max_range (VInt <$> scores2).
Proof.
  intros Hperm.
  destruct scores1 as [|s1 scores1].
  { by apply Permutation_nil_l in Hperm as ->. }
  destruct scores2 as [|s2 scores2].
  { by apply Permutation_nil_r in Hperm. }
  destruct (min_max_range_bounds (s1 :: scores1)) as (mn1 & mx1 & -> & Hn1 & Hx1 & Hb1);
    [done|].
  destruct (min_max_range_bounds (s2 :: scores2)) as (mn2 & mx2 & -> & Hn2 & Hx2 & Hb2);
    [done|].
  rewrite Forall_forall in Hb1, Hb2.
  rewrite Hperm in Hn1, Hx1. rewrite <- Hperm in Hn2, Hx2.
  pose proof (Hb1 _ Hn2). pose proof (Hb1 _ Hx2).
  pose proof (Hb2 _ Hn1). pose proof (Hb2 _ Hx1).
  assert (mn1 = mn2) as -> by lia. by assert (mx1 = mx2) as -> by lia.
Qed.

(** X7. The range is zero exactly when all the scores are the same. *)
Theorem calculate_min_max_range_zero (scores : list Z)
    (min_score max_score score_range : value) :
  calculate_min_max_range (VInt <$> scores)
    = Ok (min_score, max_score, score_range) →
  score_range = VInt 0 ↔ ∀ x y, x ∈ scores → y ∈ scores → x = y.
Proof.
  intros Hrun.
  destruct scores as [|s scores]; [done|].
  destruct (min_max_range_bounds (s :: scores)) as (mn & mx & Hmmr & Hn & Hx & Hb);
    [done|].
  rewrite Hmmr in Hrun. injection Hrun as <- <- <-.
  rewrite Forall_forall in Hb. split.
  - intros [= Hzero] x y Hx' Hy'.
    pose proof (Hb _ Hx'). pose proof (Hb _ Hy'). lia.
  - intros Heq. f_equal. rewrite (Heq mx mn) by done. lia.
Qed.

(** ** The aggregator on the records of the reader *)



(** X9. [process_student_results] prints nothing and leaves the files
    alone, whatever it is given: the "Missing data" line of
    [calculate_average] cannot come out of it.  When it returns, it
    returns as many results as it was given records. *)
Theorem process_student_results_silent (students : list (gmap string value))
    (w : world) :
  (process_student_results students w).1 = w
  ∧ match (process_student_results students w).2 with
    | Ok results => length results = length students
    | Raise _ => True
    end.
Proof.
  unfold process_student_results.
  destruct (process_loop_cases students [] w) as [[e He] | (new & Hnew & Hall)].
  - by rewrite He.
  - rewrite Hnew. split; [done|]. simpl.
    symmetry. by eapply Forall2_length.
Qed.

(** The loop body and the loop reach the same result from every world
    and give the world back. *)
Lemma process_student_pure (student : gmap string value) :
  ∃ r, ∀ w, process_student student w = (w, r).
Proof.
  unfold process_student, score_keys. simpl mapM. unfold getitem.
  destruct (student !! "cyber_security") as [cs|] eqn:Hcs;
    [| by eexists].
  destruct (student !! "data_science") as [ds|] eqn:Hds;
    [| by eexists].
  destruct (student !! "computing_foundation") as [cf|] eqn:Hcf;
    [| by eexists].
  destruct (student !! "digital_literacy") as [dl|] eqn:Hdl;
    [| by eexists].
  destruct (student !! "software_foundation") as [sf|] eqn:Hsf;
    [| by eexists].
  assert (Hall : Forall (λ key, is_Some (student !! key)) score_keys).
  { repeat constructor; by eexists. }
  unfold calculate_average. unfold_monad. cbv beta iota.
  destruct (average_body student) as [average | e] eqn:Hbody.
  - destruct (calculate_min_max_range [cs; ds; cf; dl; sf])
      as [[[min_score max_score] score_range] | e]; [| by eexists].
    destruct (student !! "name") as [name|]; by eexists.
  - destruct e; try by eexists.
    by apply average_body_no_KeyError in Hbody.
Qed.

Lemma process_loop_pure (students results : list (gmap string value)) :
  ∃ r, ∀ w, process_loop students results w = (w, r).
Proof.
  revert results. induction students as [|student students IH]; intros results.
  - by eexists.
  - destruct (process_student_pure student) as [[[r|]|e] Hstudent].
    + destruct (IH (results ++ [r])) as [r' Hrest].
      exists r'. intros w. simpl. unfold mbind, M_bind.
      by rewrite Hstudent.
    + destruct (IH results) as [r' Hrest].
      exists r'. intros w. simpl. unfold mbind, M_bind.
      by rewrite Hstudent.
    + exists (Raise e). intros w. simpl. unfold mbind, M_bind.
      by rewrite Hstudent.
Qed.

Lemma student_results_dom (name cs ds cf dl sf average grade
    min_score max_score score_range pass_fail : value) :
  dom (student_results name cs ds cf dl sf average grade
         min_score max_score score_range pass_fail) = list_to_set header.
Proof.
  unfold student_results, header.
  rewrite !dom_insert_L, dom_singleton_L. cbn [list_to_set].
  by rewrite (right_id_L ∅ (∪)).
Qed.

(** On records of the reader the call returns, with one result per
    record, each with the twelve keys of the header. *)
Lemma process_student_results_reader (students : list (gmap string value)) :
  Forall reader_record students →
  ∃ results, (∀ w, process_student_results students w = (w, Ok results))
             ∧ length results = length students
             ∧ Forall (λ r, dom r = list_to_set header) results.
Proof.
  intros Hrecords. unfold process_student_results.
  destruct (process_loop_pure students []) as [r Hpure].
  destruct (process_student_results_records students (World [] ∅) Hrecords)
    as (results & Hrun & Hall).
  unfold process_student_results in Hrun. rewrite Hpure in Hrun.
  injection Hrun as ->.
  exists results. split; [done|]. split.
  { symmetry. by eapply Forall2_length. }
  clear Hpure Hrecords. induction Hall as [|student r students results Hr _ IH];
    constructor; [|done].
  destruct (process_student_cases student (World [] ∅)) as [[e He] | Hok];
    [congruence|].
  destruct Hok as (? & ? & ? & ? & ? & ? & ? & ? & ? & ? & _ & _ & _ & _ & _ & _
                   & _ & _ & Hstudent).
  rewrite Hstudent in Hr. injection Hr as <-. apply student_results_dom.
Qed.

Lemma process_loop_Forall2 (students new results : list (gmap string value))
    (w : world) :
  Forall2 (λ student r, process_student student w = (w, Ok (Some r)))
    students new →
  process_loop students results w = (w, Ok (results ++ new)).
Proof.
  intros Hall. revert results.
  induction Hall as [|student r students new Hr _ IH]; intros results.
  - simpl. by rewrite app_nil_r.
  - simpl. unfold mbind, M_bind. rewrite Hr, IH. by rewrite <- app_assoc.
Qed.

Lemma process_student_results_Forall2 (students results : list (gmap string value))
    (w w' : world) :
  process_student_results students w = (w', Ok results) →
  w' = w
  ∧ Forall2 (λ student r, process_student student w = (w, Ok (Some r)))
      students results.
Proof.
  unfold process_student_results. intros Hrun.
  destruct (process_loop_cases students [] w) as [[e He] | (new & Hnew & Hall)];
    [congruence|].
  rewrite Hnew in Hrun. by injection Hrun as <- <-.
Qed.

(** X20. Records are evaluated one by one, with nothing carried from one
    to the next: when the call returns on two lists, on their
    concatenation it returns the concatenation of the two results. *)
Theorem process_student_results_app
    (students1 students2 results1 results2 : list (gmap string value))
    (w : world) :
  process_student_results students1 w = (w, Ok results1) →
  process_student_results students2 w = (w, Ok results2) →
  process_student_results (students1 ++ students2) w
    = (w, Ok (results1 ++ results2)).
Proof.
  intros [_ H1]%process_student_results_Forall2
         [_ H2]%process_student_results_Forall2.
  unfold process_student_results.
  by apply (process_loop_Forall2 _ (results1 ++ results2) []), Forall2_app.
Qed.


(** ** The reader on whole files *)

Section ReaderFiles.
Context `{Builtins}.

(** Without an invalid row, every row is either reported as short or
    turned into a record, in the order of the file. *)
Lemma read_rows_records (rows : list (list string))
    (data : list (gmap string value)) :
  Forall (λ r, ¬ invalid_row r) rows →
  ∃ new,
    (∀ w, read_rows rows data w =
            (tell (MissingDataRow <$> filter (λ r, length r < 6)%nat rows) w,
             Ok (data ++ new)))
    ∧ Forall2 (λ row student, row_record row = Ok student)
        (filter (λ r, 6 ≤ length r)%nat rows) new
    ∧ (length new + length (filter (λ r, length r < 6)%nat rows)
       = length rows)%nat.
Proof.
  intros Hrows. revert data.
  induction Hrows as [|row rows Hrow _ IH]; intros data.
  - exists []. split; [|split; [constructor | done]].
    intros w. by rewrite tell_nil, app_nil_r.
  - destruct (decide (length row < 6)%nat) as [Hlen | Hlen].
    + destruct (IH data) as (new & Hrun & Hall & Hcount).
      exists new. rewrite filter_cons_True by done.
      rewrite filter_cons_False by lia. split; [|split; [done | simpl; lia]].
      intros w. by rewrite read_rows_short, Hrun, tell_app.
    + destruct (row_record_cases row) as [[_ Hok] | [Hbad _]]; [lia | | done].
      destruct Hok as (name & cs & ds & cf & dl & sf & Hrec).
      destruct (IH (data ++ [student_record name cs ds cf dl sf]))
        as (new & Hrun & Hall & Hcount).
      exists (student_record name cs ds cf dl sf :: new).
      rewrite filter_cons_False by done.
      rewrite filter_cons_True by lia.
      split; [|split; [by constructor | simpl; lia]].
      intros w.
      rewrite (read_rows_record row rows data _ w ltac:(lia) Hrec), Hrun.
      by rewrite <- app_assoc.
Qed.

(** Whatever the loop returns is made of what it started with and of
    records built at lines 28-35. *)
Lemma read_rows_reader_records (rows : list (list string))
    (data data' : list (gmap string value)) (w w' : world) :
  read_rows rows data w = (w', Ok data') →
  Forall reader_record data → Forall reader_record data'.
Proof.
  revert data w. induction rows as [|row rows IH]; intros data w Hrun Hdata.
  - simpl in Hrun. by injection Hrun as _ <-.
  - destruct (decide (length row < 6)%nat) as [Hlen | Hlen].
    + rewrite read_rows_short in Hrun by done. by eapply IH.
    + destruct (row_record_cases row) as [[_ Hok] | [_ Hbad]]; [lia | |].
      * destruct Hok as (name & cs & ds & cf & dl & sf & Hrec).
        rewrite (read_rows_record row rows data _ w ltac:(lia) Hrec) in Hrun.
        eapply IH; [done|]. apply Forall_app. split; [done|].
        repeat constructor. by exists name, cs, ds, cf, dl, sf.
      * by rewrite (read_rows_invalid row rows data w ltac:(lia) Hbad) in Hrun.
Qed.

(** X10. On a file whose rows all pass, [read_student_data] returns one
    record per row of six fields or more, in file order, built from the
    fields of that row, and prints one "Missing data" line per shorter
    row, in file order; every data row is accounted for by one or the
    other. *)
Theorem read_student_data_records (filename : string) (hdr : list string)
    (rows : list (list string)) (w : world) :
  files w !! filename = Some (hdr :: rows) →
  Forall (λ r, ¬ invalid_row r) rows →
  ∃ data,
    read_student_data filename w =
      (tell (MissingDataRow <$> filter (λ r, length r < 6)%nat rows) w, Ok data)
    ∧ Forall2 (λ row student, row_record row = Ok student)
        (filter (λ r, 6 ≤ length r)%nat rows) data
    ∧ Forall reader_record data
    ∧ (length data + length (filter (λ r, length r < 6)%nat rows)
       = length rows)%nat.
Proof.
  intros Hfile Hrows.
  destruct (read_rows_records rows [] Hrows) as (data & Hrun & Hall & Hcount).
  exists data. rewrite (read_student_data_rows _ _ _ _ Hfile).
  split; [apply Hrun|]. split; [done|]. split; [|done].
  by apply (read_rows_reader_records rows [] data w _ (Hrun w)).
Qed.

Lemma row_record_take (row : list string) :
  (6 ≤ length row)%nat → row_record (take 6 row) = row_record row.
Proof.
  intros Hlen.
  destruct row as [|f0 [|f1 [|f2 [|f3 [|f4 [|f5 rest]]]]]];
    simpl in Hlen; try lia.
  reflexivity.
Qed.

Lemma read_rows_result_take (rows : list (list string))
    (data : list (gmap string value)) (w w' : world) :
  (read_rows (take 6 <$> rows) data w').2 = (read_rows rows data w).2.
Proof.
  revert data w w'. induction rows as [|row rows IH]; intros data w w'; [done|].
  rewrite fmap_cons.
  destruct (decide (length row < 6)%nat) as [Hlen | Hlen].
  - rewrite take_ge by lia. rewrite !read_rows_short by done. apply IH.
  - assert (Hlen6 : (6 ≤ length (take 6 row))%nat)
      by (rewrite length_take_le; lia).
    destruct (row_record_cases row) as [[_ Hok] | [_ Hbad]]; [lia | |].
    + destruct Hok as (name & cs & ds & cf & dl & sf & Hrec).
      rewrite (read_rows_record row rows data _ w ltac:(lia) Hrec).
      rewrite <- row_record_take in Hrec by lia.
      rewrite (read_rows_record (take 6 row) _ data _ w' Hlen6 Hrec).
      apply IH.
    + rewrite (read_rows_invalid row rows data w ltac:(lia) Hbad).
      rewrite <- row_record_take in Hbad by lia.
      by rewrite (read_rows_invalid (take 6 row) _ data w' Hlen6 Hbad).
Qed.

(** X11. Only the first six fields of a row count: cutting every row of
    the file after its sixth field changes neither the records returned
    nor whether the run is stopped. *)
Theorem read_student_data_first_six_fields (filename : string)
    (hdr : list string) (rows : list (list string)) (w w' : world) :
  files w !! filename = Some (hdr :: rows) →
  files w' !! filename = Some (hdr :: (take 6 <$> rows)) →
  (read_student_data filename w').2 = (read_student_data filename w).2.
Proof.
  intros Hfile Hfile'.
  rewrite (read_student_data_rows _ _ _ _ Hfile),
    (read_student_data_rows _ _ _ _ Hfile').
  apply read_rows_result_take.
Qed.

Lemma read_student_data_missing (filename : string) (w : world) :
  files w !! filename = None →
  read_student_data filename w =
    (tell [NotFound filename] w, Raise (SystemExit 1)).
Proof.
  intros Hfile. unfold read_student_data, open_csv. unfold_monad.
  by rewrite Hfile.
Qed.

(** X12. When the input file does not exist, the reader prints the
    "not found" line and leaves through [sys.exit(1)]: no list, no file
    written, status 1. *)
Theorem main_file_not_found (w : world) :
  files w !! "students.csv" = None →
  read_student_data "students.csv" w =
    (tell [NotFound "students.csv"] w, Raise (SystemExit 1))
  ∧ main w = (tell [NotFound "students.csv"] w, Raise (SystemExit 1))
  ∧ files (main w).1 = files w
  ∧ exit_status (main w).2 = 1.
Proof.
  intros Hfile.
  pose proof (read_student_data_missing _ _ Hfile) as Hread.
  pose proof (main_read_raises _ _ _ Hread) as Hmain.
  by rewrite Hmain.
Qed.



End ReaderFiles.

(** ** The writer and the whole run *)

Section Run.
Context `{Builtins}.

Lemma dict_to_list_line (rowdict : gmap string value) :
  dom rowdict ⊆ list_to_set header →
  dict_to_list header rowdict = Ok (csv_line rowdict).
Proof.
  intros Hdom. unfold dict_to_list.
  by rewrite bool_decide_eq_true_2.
Qed.

Lemma writerows_lines (filename : string) (results : list (gmap string value))
    (content : list (list string)) (w : world) :
  Forall (λ r, dom r ⊆ list_to_set header) results →
  files w !! filename = Some content →
  writerows filename header results w =
    (World (stdout w)
       (<[filename := content ++ (csv_line <$> results)]> (files w)),
     Ok tt).
Proof.
  intros Hdom. revert content w.
  induction Hdom as [|r results Hr _ IH]; intros content w Hfile.
  - simpl. rewrite app_nil_r, insert_id by done. by destruct w.
  - simpl. unfold_monad. rewrite (dict_to_list_line r Hr), Hfile. simpl.
    rewrite (IH (content ++ [csv_line r])) by apply lookup_insert_eq.
    simpl. by rewrite insert_insert_eq, <- app_assoc.
Qed.

Lemma write_results_to_csv_lines (results : list (gmap string value))
    (filename : string) (w : world) :
  results ≠ [] →
  Forall (λ r, dom r ⊆ list_to_set header) results →
  write_results_to_csv results filename w =
    (World (stdout w ++ [ResultsWritten filename])
       (<[filename := header :: (csv_line <$> results)]> (files w)),
     Ok tt).
Proof.
  intros Hne Hdom. destruct results as [|r results]; [done|].
  unfold write_results_to_csv. unfold_monad. cbv beta iota.
  rewrite (writerows_lines filename (r :: results) [header]);
    [| done | apply lookup_insert_eq].
  unfold print. simpl. by rewrite insert_insert_eq.
Qed.


(** The run once the reader has returned records. *)
Lemma main_after_read (w : world) (log : list msg)
    (data results : list (gmap string value)) :
  read_student_data "students.csv" w = (tell log w, Ok data) →
  Forall reader_record data → data ≠ [] →
  (∀ w0, process_student_results data w0 = (w0, Ok results)) →
  length results = length data →
  Forall (λ r, dom r = list_to_set header) results →
  main w =
    (World (stdout w ++ log ++ [ResultsWritten "student_results.csv";
                                ProcessingCompleted])
       (<["student_results.csv" := header :: (csv_line <$> results)]>
          (files w)),
     Ok tt).
Proof.
  intros Hread Hdata Hne Hrun Hlen Hdom.
  unfold main. unfold mbind at 1. unfold M_bind at 1. rewrite Hread.
  destruct data as [|d data]; [done|].
  unfold mbind, M_bind. rewrite Hrun.
  rewrite write_results_to_csv_lines.
  - unfold print, tell. simpl. by rewrite <- !app_assoc.
  - intros ->. done.
  - eapply Forall_impl; [exact Hdom|]. by intros r ->.
Qed.

Lemma main_after_read_nothing (w : world) (log : list msg) :
  read_student_data "students.csv" w = (tell log w, Ok []) →
  main w = (tell (log ++ [ProcessingCompleted]) w, Ok tt).
Proof.
  intros Hread. unfold main. unfold_monad. rewrite Hread.
  unfold print, tell. simpl. by rewrite <- app_assoc.
Qed.



(** What the loop prints is about rows only. *)
Lemma read_rows_log (rows : list (list string))
    (data : list (gmap string value)) :
  ∃ log r, (∀ w, read_rows rows data w = (tell log w, r))
           ∧ ((∃ data', r = Ok data') ∨ r = Raise (SystemExit 1))
           ∧ Forall (λ m, ∃ row, m = MissingDataRow row ∨ m = InvalidData row)
               log.
Proof.
  revert data. induction rows as [|row rows IH]; intros data.
  - exists [], (Ok data). split; [|split; [by eauto | constructor]].
    intros w. by rewrite tell_nil.
  - destruct (decide (length row < 6)%nat) as [Hlen | Hlen].
    + destruct (IH data) as (log & r & Hrun & Hr & Hlog).
      exists (MissingDataRow row :: log), r.
      split; [|split; [done | constructor; by eauto]].
      intros w. by rewrite read_rows_short, Hrun, tell_app.
    + destruct (row_record_cases row) as [[_ Hok] | [_ Hbad]]; [lia | |].
      * destruct Hok as (name & cs & ds & cf & dl & sf & Hrow).
        destruct (IH (data ++ [student_record name cs ds cf dl sf]))
          as (log & r & Hrun & Hr & Hlog).
        exists log, r. split; [|done]. intros w.
        by rewrite (read_rows_record row rows data _ w ltac:(lia) Hrow).
      * exists [InvalidData row], (Raise (SystemExit 1)).
        split; [|split; [by right | repeat constructor; by eauto]].
        intros w.
        by rewrite (read_rows_invalid row rows data w ltac:(lia) Hbad).
Qed.

(** A run is decided by the input file alone: what it prints, how it
    ends and what it writes. *)
Lemma main_outcome (input : option (list (list string))) :
  ∃ (log : list msg) (r : result unit) (out : option (list (list string))),
    (∀ w, files w !! "students.csv" = input →
          main w = (World (stdout w ++ log) (write_out out (files w)), r))
    ∧ (r = Ok tt ∨ r = Raise (SystemExit 1) ∨ r = Raise StopIteration)
    ∧ Forall (λ m, m ≠ NoDataToWrite ∧ ∀ k, m ≠ MissingDataKey k) log
    ∧ (is_Some out → r = Ok tt).
Proof.
  destruct input as [[|hdr rows]|].
  - exists [], (Raise StopIteration), None.
    split; [|split; [by auto | split; [constructor | by intros [? ?]]]].
    intros w Hfile. simpl. rewrite app_nil_r.
    rewrite (main_read_raises w w StopIteration (read_student_data_no_header _ _ Hfile)).
    by destruct w.
  - destruct (read_rows_log rows []) as (log & r & Hrun & Hr & Hlog).
    assert (Hlog' : Forall (λ m, m ≠ NoDataToWrite ∧ ∀ k, m ≠ MissingDataKey k)
                      log).
    { eapply Forall_impl; [exact Hlog|].
      intros m [row [-> | ->]]; by split. }
    destruct Hr as [[data ->] | ->].
    + assert (Hdata : Forall reader_record data).
      { eapply read_rows_reader_records;
          [apply (Hrun (World [] ∅)) | constructor]. }
      destruct data as [|d data].
      * exists (log ++ [ProcessingCompleted]), (Ok tt), None.
        split; [|split; [by auto | split; [| by intros [? ?]]]].
        -- intros w Hfile. apply main_after_read_nothing.
           by rewrite (read_student_data_rows _ _ _ _ Hfile).
        -- apply Forall_app. split; [done|]. by repeat constructor.
      * destruct (process_student_results_reader (d :: data) Hdata)
          as (results & Hprocess & Hlen & Hdom).
        exists (log ++ [ResultsWritten "student_results.csv"; ProcessingCompleted]),
          (Ok tt), (Some (header :: (csv_line <$> results))).
        split; [|split; [by auto | split; [| done]]].
        -- intros w Hfile.
           apply (main_after_read w log (d :: data) results); try done.
           by rewrite (read_student_data_rows _ _ _ _ Hfile).
        -- apply Forall_app. split; [done|]. by repeat constructor.
    + exists log, (Raise (SystemExit 1)), None.
      split; [|split; [by auto | split; [done | by intros [? ?]]]].
      intros w Hfile. apply main_read_raises.
      by rewrite (read_student_data_rows _ _ _ _ Hfile).
  - exists [NotFound "students.csv"], (Raise (SystemExit 1)), None.
    split; [|split; [by auto | split; [| by intros [? ?]]]].
    + intros w Hfile. apply main_read_raises.
      by apply read_student_data_missing.
    + by repeat constructor.
Qed.


(** X17. A run never prints "No data to write." and never prints the
    "Missing data" line of [calculate_average]: both [print] calls are
    out of reach of the script. *)
Theorem main_never_prints_no_data (w : world) :
  ∃ log, stdout (main w).1 = stdout w ++ log
         ∧ (NoDataToWrite ∉ log)
         ∧ (∀ k, MissingDataKey k ∉ log).
Proof.
  destruct (main_outcome (files w !! "students.csv"))
    as (log & r & out & Hmain & _ & Hlog & _).
  exists log. rewrite (Hmain w eq_refl). split; [done|].
  rewrite Forall_forall in Hlog.
  split; [| intros k]; intros Hin; destruct (Hlog _ Hin) as [Hno Hkey].
  - by apply Hno.
  - by apply (Hkey k).
Qed.


(** X19. Running the script again on the files it left changes nothing
    more: it ends the same way and leaves the same files. *)
Theorem main_twice (w : world) :
  (main (main w).1).2 = (main w).2
  ∧ files (main (main w).1).1 = files (main w).1.
Proof.
  destruct (main_outcome (files w !! "students.csv"))
    as (log & r & out & Hmain & _ & _ & _).
  rewrite (Hmain w eq_refl). simpl.
  rewrite (Hmain (World (stdout w ++ log) (write_out out (files w)))).
  - simpl. split; [done|]. destruct out as [content|]; [|done].
    simpl. by rewrite insert_insert_eq.
  - simpl. destruct out as [content|]; [|done].
    simpl. by rewrite lookup_insert_ne.
Qed.

End Run.

(** ** The theorems at work on concrete inputs *)

#[local] Existing Instance Demo.builtins.


Lemma calculate_min_max_range_ints_witness :
  [90; 85; 70; 95; 100] ≠ []
  ∧ ∃ min_score max_score : Z,
      calculate_min_max_range (VInt <$> [90; 85; 70; 95; 100])
        = Ok (VInt min_score, VInt max_score, VInt (max_score - min_score))
      ∧ min_score ∈ [90; 85; 70; 95; 100]
      ∧ max_score ∈ [90; 85; 70; 95; 100]
      ∧ Forall (λ s, min_score ≤ s ∧ s ≤ max_score) [90; 85; 70; 95; 100]
      ∧ min_score ≤ max_score
      ∧ 0 ≤ max_score - min_score.
Proof.
  assert (Hne : [90; 85; 70; 95; 100] ≠ []) by discriminate.
  split; [exact Hne|].
  exact (calculate_min_max_range_ints [90; 85; 70; 95; 100] Hne).
Defined.

Lemma process_student_results_keeps_scores_witness :
  process_student_results [Demo.alice; Demo.bob] Demo.w0
    = (Demo.w0, Ok [Demo.alice_results; Demo.bob_results])
  ∧ Forall2 (λ student r,
               dom r = list_to_set header
               ∧ ∀ k, k ∈ "name" :: score_keys →
                      is_Some (student !! k) ∧ r !! k = student !! k)
      [Demo.alice; Demo.bob] [Demo.alice_results; Demo.bob_results].
Proof.
  assert (Hrun : process_student_results [Demo.alice; Demo.bob] Demo.w0
                 = (Demo.w0, Ok [Demo.alice_results; Demo.bob_results]))
    by vm_refl.
  split; [exact Hrun|].
  exact (process_student_results_keeps_scores _ _ _ _ Hrun).
Defined.

Lemma read_student_data_skips_short_row_witness :
  (length Demo.short_row < 6)%nat
  ∧ (read_student_data "students.csv" Demo.w_short).2
    = (read_student_data "students.csv" Demo.w_good).2
  ∧ (Forall (λ r, ¬ invalid_row r) [Demo.alice_row] →
     ∃ log1 log2,
       stdout (read_student_data "students.csv" Demo.w_short).1
         = stdout Demo.w_short ++ log1 ++ MissingDataRow Demo.short_row :: log2
       ∧ stdout (read_student_data "students.csv" Demo.w_good).1
         = stdout Demo.w_good ++ log1 ++ log2).
Proof.
  assert (Hlen : (length Demo.short_row < 6)%nat) by (simpl; lia).
  split; [exact Hlen|].
  exact (read_student_data_skips_short_row "students.csv" Demo.csv_header
           Demo.short_row [Demo.alice_row] [Demo.bob_row]
           Demo.w_short Demo.w_good
           (lookup_singleton_eq _ _) (lookup_singleton_eq _ _) Hlen).
Defined.

Lemma main_invalid_score_aborts_witness :
  Exists invalid_row
    [Demo.alice_row; Demo.short_row; Demo.carl_row; Demo.bob_row]
  ∧ ∃ pre bad post,
      [Demo.alice_row; Demo.short_row; Demo.carl_row; Demo.bob_row]
        = pre ++ bad :: post
      ∧ invalid_row bad
      ∧ Forall (λ r, ¬ invalid_row r) pre
      ∧ let w' := tell ((MissingDataRow <$> filter (λ r, length r < 6)%nat pre)
                        ++ [InvalidData bad]) Demo.w_invalid in
        read_student_data "students.csv" Demo.w_invalid
          = (w', Raise (SystemExit 1))
        ∧ main Demo.w_invalid = (w', Raise (SystemExit 1))
        ∧ files w' = files Demo.w_invalid
        ∧ exit_status (Raise (SystemExit 1)) = 1.
Proof.
  assert (Hex : Exists invalid_row
            [Demo.alice_row; Demo.short_row; Demo.carl_row; Demo.bob_row]).
  { apply Exists_cons_tl, Exists_cons_tl, Exists_cons_hd.
    split; [simpl; lia|].
    exists 1%nat, "abc". split; [lia|]. split; reflexivity. }
  split; [exact Hex|].
  exact (main_invalid_score_aborts Demo.csv_header _ Demo.w_invalid
           (lookup_singleton_eq _ _) Hex).
Defined.

Lemma read_student_data_empty_file_witness :
  files Demo.w_empty !! "students.csv" = Some []
  ∧ read_student_data "students.csv" Demo.w_empty
    = (Demo.w_empty, Raise StopIteration)
  ∧ ("students.csv" = "students.csv" →
     main Demo.w_empty = (Demo.w_empty, Raise StopIteration))
  ∧ (∀ code, Raise StopIteration ≠ Raise (A:=unit) (SystemExit code))
  ∧ exit_status (Raise StopIteration) = 1.
Proof.
  assert (Hfile : files Demo.w_empty !! "students.csv" = Some [])
    by apply lookup_singleton_eq.
  split; [exact Hfile|].
  exact (read_student_data_empty_file "students.csv" Demo.w_empty Hfile).
Defined.

Lemma main_header_only_witness :
  files Demo.w_header !! "students.csv" = Some [Demo.csv_header]
  ∧ main Demo.w_header = (tell [ProcessingCompleted] Demo.w_header, Ok tt)
  ∧ exit_status (Ok tt) = 0
  ∧ files (tell [ProcessingCompleted] Demo.w_header) = files Demo.w_header
  ∧ stdout (tell [ProcessingCompleted] Demo.w_header)
    = stdout Demo.w_header ++ [ProcessingCompleted].
Proof.
  assert (Hfile : files Demo.w_header !! "students.csv" = Some [Demo.csv_header])
    by apply lookup_singleton_eq.
  split; [exact Hfile|].
  exact (main_header_only Demo.csv_header Demo.w_header Hfile).
Defined.

(** The two scenarios of the specification, end to end: Alice passes with
    88.0 and an A, Bob fails with 30.0 and an F, and the output file holds
    the header and one row for each. *)
Example main_alice_and_bob :
  main Demo.w_good =
    (World [ResultsWritten "student_results.csv"; ProcessingCompleted]
       (<["student_results.csv" :=
            [header;
             ["Alice"; "90"; "85"; "70"; "95"; "100"; "88.0"; "A"; "70";
              "100"; "30"; "Congratulations, you passed!"];
             ["Bob"; "30"; "40"; "35"; "20"; "25"; "30.0"; "F"; "20"; "40";
              "20"; "Fail"]]]> (files Demo.w_good)),
     Ok tt).
Proof. vm_refl. Qed.

(** ** The further properties at work on concrete inputs *)

Ltac not_invalid :=
  let Hlen := fresh in
  let i := fresh in
  let Hi := fresh in
  let Hi' := fresh in
  let Hs := fresh in
  let Hnone := fresh in
  intros (Hlen & i & ? & [Hi Hi'] & Hs & Hnone);
  first [ simpl in Hlen; lia
        | do 6 (destruct i as [|i]; [try lia; simpl in Hs; injection Hs as <-;
                                     vm_compute in Hnone; discriminate |]);
          lia ].


Lemma calculate_average_first_missing_witness :
  Demo.dan !! "software_foundation" = None
  ∧ calculate_average Demo.dan Demo.w0
    = (tell [MissingDataKey "software_foundation"] Demo.w0, Ok None).
Proof.
  assert (Hnone : Demo.dan !! "software_foundation" = None) by vm_refl.
  split; [exact Hnone|].
  refine (calculate_average_first_missing Demo.dan
            ["cyber_security"; "data_science"; "computing_foundation";
             "digital_literacy"] [] "software_foundation" Demo.w0
            eq_refl _ Hnone).
  repeat apply Forall_cons_2; [exists 50 | exists 60 | exists 70 | exists 80 |];
    [vm_refl .. | apply Forall_nil_2].
Defined.


Lemma assign_grade_monotone_witness :
  (55 <= 72)%Q
  ∧ (grade_rank (assign_grade 55) ≤ grade_rank (assign_grade 72))%nat.
Proof.
  assert (Hle : (55 <= 72)%Q) by (unfold Qle; simpl; lia).
  split; [exact Hle|]. exact (assign_grade_monotone 55 72 Hle).
Defined.

Lemma calculate_min_max_range_permutation_witness :
  [70; 90; 85] ≡ₚ [90; 85; 70]
  ∧ calculate_min_max_range (VInt <$> [70; 90; 85])
    = calculate_min_max_range (VInt <$> [90; 85; 70]).
Proof.
  assert (Hperm : [70; 90; 85] ≡ₚ [90; 85; 70])
    by apply (Permutation_cons_append [90; 85] 70).
  split; [exact Hperm|].
  exact (calculate_min_max_range_permutation _ _ Hperm).
Defined.

Lemma calculate_min_max_range_zero_witness :
  calculate_min_max_range (VInt <$> [70; 70; 70])
    = Ok (VInt 70, VInt 70, VInt 0)
  ∧ (VInt 0 = VInt 0 ↔ ∀ x y, x ∈ [70; 70; 70] → y ∈ [70; 70; 70] → x = y).
Proof.
  assert (Hrun : calculate_min_max_range (VInt <$> [70; 70; 70])
                 = Ok (VInt 70, VInt 70, VInt 0)) by reflexivity.
  split; [exact Hrun|].
  exact (calculate_min_max_range_zero [70; 70; 70] _ _ _ Hrun).
Defined.

Lemma process_student_results_app_witness :
  process_student_results [Demo.alice] Demo.w0 = (Demo.w0, Ok [Demo.alice_results])
  ∧ process_student_results [Demo.bob] Demo.w0 = (Demo.w0, Ok [Demo.bob_results])
  ∧ process_student_results ([Demo.alice] ++ [Demo.bob]) Demo.w0
    = (Demo.w0, Ok ([Demo.alice_results] ++ [Demo.bob_results])).
Proof.
  assert (Ha : process_student_results [Demo.alice] Demo.w0
               = (Demo.w0, Ok [Demo.alice_results])) by vm_refl.
  assert (Hb : process_student_results [Demo.bob] Demo.w0
               = (Demo.w0, Ok [Demo.bob_results])) by vm_refl.
  split; [exact Ha|]. split; [exact Hb|].
  exact (process_student_results_app _ _ _ _ _ Ha Hb).
Defined.


Lemma read_student_data_records_witness :
  Forall (λ r, ¬ invalid_row r) [Demo.alice_row; Demo.short_row; Demo.bob_row]
  ∧ ∃ data,
      read_student_data "students.csv" Demo.w_short =
        (tell (MissingDataRow <$> filter (λ r, length r < 6)%nat
                 [Demo.alice_row; Demo.short_row; Demo.bob_row]) Demo.w_short,
         Ok data)
      ∧ Forall2 (λ row student, row_record row = Ok student)
          (filter (λ r, 6 ≤ length r)%nat
             [Demo.alice_row; Demo.short_row; Demo.bob_row]) data
      ∧ Forall reader_record data
      ∧ (length data
         + length (filter (λ r, length r < 6)%nat
                     [Demo.alice_row; Demo.short_row; Demo.bob_row])
         = length [Demo.alice_row; Demo.short_row; Demo.bob_row])%nat.
Proof.
  assert (Hrows : Forall (λ r, ¬ invalid_row r)
                    [Demo.alice_row; Demo.short_row; Demo.bob_row]).
  { repeat apply Forall_cons_2; [not_invalid .. | apply Forall_nil_2]. }
  split; [exact Hrows|].
  exact (read_student_data_records "students.csv" Demo.csv_header _ Demo.w_short
           (lookup_singleton_eq _ _) Hrows).
Defined.

Lemma read_student_data_first_six_fields_witness :
  files Cases.w_alice !! "students.csv"
    = Some (Demo.csv_header :: (take 6 <$> [Cases.wide_row]))
  ∧ (read_student_data "students.csv" Cases.w_alice).2
    = (read_student_data "students.csv" Cases.w_wide).2.
Proof.
  assert (Hfile : files Cases.w_alice !! "students.csv"
                  = Some (Demo.csv_header :: (take 6 <$> [Cases.wide_row])))
    by apply lookup_singleton_eq.
  split; [exact Hfile|].
  exact (read_student_data_first_six_fields "students.csv" Demo.csv_header
           [Cases.wide_row] Cases.w_wide Cases.w_alice
           (lookup_singleton_eq _ _) Hfile).
Defined.

Lemma main_file_not_found_witness :
  files Demo.w0 !! "students.csv" = None
  ∧ read_student_data "students.csv" Demo.w0 =
      (tell [NotFound "students.csv"] Demo.w0, Raise (SystemExit 1))
  ∧ main Demo.w0 = (tell [NotFound "students.csv"] Demo.w0, Raise (SystemExit 1))
  ∧ files (main Demo.w0).1 = files Demo.w0
  ∧ exit_status (main Demo.w0).2 = 1.
Proof.
  assert (Hfile : files Demo.w0 !! "students.csv" = None) by apply lookup_empty.
  split; [exact Hfile|]. exact (main_file_not_found Demo.w0 Hfile).
Defined.



